(** * LibraryDatabase: a model of [database.py] and its specification

    [database.py] keeps one SQLite table,

      books (id INTEGER PRIMARY KEY AUTOINCREMENT,
             title TEXT NOT NULL, author TEXT NOT NULL,
             genre TEXT, description TEXT, available INTEGER DEFAULT 1)

    and every method of [LibraryDatabase] opens a connection, runs one or
    a few statements and closes it again.  The model keeps the content of
    the database file as a value of type [DB] and threads it through the
    methods: a method that returns [x] and leaves the file in state [db']
    is a function into [x * DB].

    Modelling choices, all of them about the engine and not about the
    Python code:
    - an [INTEGER PRIMARY KEY] table is a B-tree keyed by the row id, so
      the table is a finite map from ids to the other five columns;
    - Python integers are [Z]; the 64-bit range check of the [sqlite3]
      binding is not modelled, and [sqlite_int] names the values that
      pass it;
    - a text value is the [string] of its UTF-8 bytes, as the binding
      hands a Python [str] to the engine; a nullable column holds an
      [option], [None] being SQL NULL and Python [None];
    - a full scan ([SELECT * FROM books ...]) yields rows by ascending
      row id. *)

From Stdlib Require Import ZArith Ascii String List.
From stdpp Require Import gmap strings list fin_maps sorting.

Local Open Scope Z_scope.

(** ** Data model *)

(** The five columns stored under a row id. *)
Record cols := Cols {
  c_title : string;
  c_author : string;
  c_genre : option string;
  c_description : option string;
  c_available : option Z
}.

(** A row as [fetchone] / [fetchall] hand it to Python: the 6-tuple
    [(id, title, author, genre, description, available)]; [book[5]] is
    [available]. *)
Record book := Book {
  id : Z;
  title : string;
  author : string;
  genre : option string;
  description : option string;
  available : option Z
}.

(** The database file: the [books] table and the [sqlite_sequence] entry
    that AUTOINCREMENT maintains (the largest row id ever handed out). *)
Record DB := MkDB {
  books : gmap Z cols;
  seq : Z
}.

(** What [create_table] leaves behind on a fresh file. *)
Definition empty_db : DB := MkDB ∅ 0.

Definition to_book (k : Z) (c : cols) : book :=
  Book k (c_title c) (c_author c) (c_genre c) (c_description c) (c_available c).

Definition to_cols (b : book) : cols :=
  Cols (title b) (author b) (genre b) (description b) (available b).

(** Exceptions the modelled calls can raise. *)
Inductive exn :=
  | TypeError         (* a required positional argument is missing *)
  | IntegrityError    (* NOT NULL constraint failed *)
  | OperationalError. (* LIKE or GLOB pattern too complex *)

(** Outcome of a call that may raise: a value and the new file content,
    or an exception (the file is then as it was before the call: nothing
    was committed). *)
Inductive outcome (A : Type) :=
  | Returns (a : A) (db' : DB)
  | Raises (e : exn).
Arguments Returns {A} a db'.
Arguments Raises {A} e.

(** Outcome of a query, which leaves the file as it is. *)
Inductive result (A : Type) :=
  | Ok (a : A)
  | Err (e : exn).
Arguments Ok {A} a.
Arguments Err {A} e.

(** An actual argument at a Python call site: left out, or passed. *)
Inductive arg (A : Type) :=
  | Omitted
  | Passed (v : A).
Arguments Omitted {A}.
Arguments Passed {A} v.

(** Binding of a parameter that has a default value. *)
Definition with_default {A : Type} (d : A) (a : arg A) : A :=
  match a with
  | Omitted => d
  | Passed v => v
  end.

(** ** The SQL statements the module issues *)

Module Sql.

(** Largest row id present in the table (0 for an empty table). *)
Definition max_rowid (t : gmap Z cols) : Z :=
  map_fold (fun k _ m => Z.max k m) 0 t.

(** Row id AUTOINCREMENT picks for the next insert: one more than the
    largest id that ever existed in the table. *)
Definition next_rowid (db : DB) : Z :=
  Z.max (seq db) (max_rowid (books db)) + 1.

(** [INSERT INTO books (title, author, genre, description, available)
    VALUES (?, ?, ?, ?, ?)]: the NOT NULL columns reject NULL; the
    result is [cursor.lastrowid]. *)
Definition insert (title author genre description : option string)
    (available : option Z) (db : DB) : outcome Z :=
  match title, author with
  | Some t, Some a =>
      let k := next_rowid db in
      Returns k (MkDB (<[k := Cols t a genre description available]> (books db)) k)
  | _, _ => Raises IntegrityError
  end.

Definition key_le (x y : Z * cols) : Prop := x.1 <= y.1.

#[export] Instance key_le_dec : RelDecision key_le.
Proof. intros x y. unfold key_le. apply _. Defined.

(** Full scan, in row id order. *)
Definition scan (db : DB) : list book :=
  map (fun kc => to_book kc.1 kc.2) (merge_sort key_le (map_to_list (books db))).

(** [SELECT * FROM books WHERE <p>], [fetchall]. *)
Definition select_where (p : book -> bool) (db : DB) : list book :=
  List.filter p (scan db).

(** [SELECT * FROM books WHERE id = ?], [fetchone]. *)
Definition select_by_id (k : Z) (db : DB) : option book :=
  to_book k <$> (books db !! k).

(** [UPDATE books SET ... WHERE id = ?]: the new file content and
    [cursor.rowcount]. *)
Definition update (f : cols -> cols) (k : Z) (db : DB) : DB * Z :=
  (MkDB (alter f k (books db)) (seq db),
   match books db !! k with Some _ => 1 | None => 0 end).

(** [DELETE FROM books WHERE id = ?]: the new file content and
    [cursor.rowcount]. *)
Definition delete (k : Z) (db : DB) : DB * Z :=
  (MkDB (base.delete k (books db)) (seq db),
   match books db !! k with Some _ => 1 | None => 0 end).

(** [sqlite3Tolower] on a byte: only the 26 letters A-Z are folded. *)
Definition to_lower (c : ascii) : ascii :=
  let n := N_of_ascii c in
  if ((65 <=? n) && (n <=? 90))%N then ascii_of_N (n + 32) else c.

(** [sqlite3Tolower] on a character, as [patternCompare] applies it: the
    letters A-Z, all below 0x80, are the only ones to change. *)
Definition fold_case (c : N) : N :=
  if ((65 <=? c) && (c <=? 90))%N then (c + 32)%N else c.

(** [sqlite3Utf8Trans1]: the payload bits of a lead byte 0xC0..0xFF. *)
Definition utf8_trans1 (n : N) : N :=
  (if n <? 224 then n - 192
   else if n <? 240 then n - 224
   else if n <? 248 then n - 240
   else if n <? 252 then n - 248
   else if n <? 254 then n - 252
   else 0)%N.

(** The end of a multi-byte character in [sqlite3Utf8Read]: overlong
    forms, surrogates and 0xFFFE/0xFFFF become U+FFFD. *)
Definition utf8_fix (c : N) : N :=
  (if (c <? 128) || (c / 2048 =? 27) || (c / 2 =? 32767) then 65533 else c)%N.

(** The characters [Utf8Read] delivers from a zero-terminated text, read
    one byte at a time: a byte below 0xC0 is a character of its own, a
    byte from 0xC0 on starts a character that takes in the continuation
    bytes (0x80..0xBF) after it, held in [pending] while they are read
    (in 32 bits).  The first zero byte ends the text. *)
Fixpoint utf8_chars (pending : option N) (z : list ascii) : list N :=
  match z with
  | [] =>
      match pending with
      | Some c => [utf8_fix c]
      | None => []
      end
  | b :: z' =>
      let n := N_of_ascii b in
      let first :=
        if (n =? 0)%N then []
        else if (n <? 192)%N then n :: utf8_chars None z'
        else utf8_chars (Some (utf8_trans1 n)) z' in
      match pending with
      | Some c =>
          if ((128 <=? n) && (n <? 192))%N
          then utf8_chars (Some ((c * 64 + n mod 64) mod 4294967296)%N) z'
          else utf8_fix c :: first
      | None => first
      end
  end.

(** The characters of a text value as [LIKE] sees them: those of its
    UTF-8 bytes up to the first NUL. *)
Definition text_chars (x : string) : list N :=
  utf8_chars None (list_ascii_of_string x).

(** [patternCompare] for [LIKE], pattern first, on the characters of
    pattern and text: [%] (37) stands for any sequence of characters,
    [_] (95) for any one character, every other character for itself up
    to the case of ASCII letters.  No escape character is in force. *)
Fixpoint like_chars (p s : list N) : bool :=
  match p with
  | [] => match s with [] => true | _ :: _ => false end
  | c :: p' =>
      if (c =? 37)%N then
        (fix any (s : list N) : bool :=
           like_chars p' s ||
           match s with
           | [] => false
           | _ :: s' => any s'
           end) s
      else if (c =? 95)%N then
        match s with
        | [] => false
        | _ :: s' => like_chars p' s'
        end
      else
        match s with
        | [] => false
        | d :: s' => (fold_case c =? fold_case d)%N && like_chars p' s'
        end
  end.

(** [SQLITE_MAX_LIKE_PATTERN_LENGTH], in bytes. *)
Definition like_limit : N := 50000.

(** [x LIKE pattern] ([likeFunc]): a pattern of more than [like_limit]
    bytes is refused with "LIKE or GLOB pattern too complex"; otherwise
    pattern and text are compared up to their first NUL. *)
Definition like (x pattern : string) : result bool :=
  if (like_limit <? N.of_nat (String.length pattern))%N then Err OperationalError
  else Ok (like_chars (text_chars pattern) (text_chars x)).

(** [a OR b] in a WHERE clause: [b] is looked at when [a] is false. *)
Definition or_else (a b : result bool) : result bool :=
  match a with
  | Ok false => b
  | _ => a
  end.

(** [SELECT * FROM books WHERE <p>], [fetchall], for a condition that
    can fail: the first row on which it fails ends the statement with
    the error. *)
Fixpoint filter_try (p : book -> result bool) (l : list book) : result (list book) :=
  match l with
  | [] => Ok []
  | b :: l' =>
      match p b with
      | Err e => Err e
      | Ok keep =>
          match filter_try p l' with
          | Err e => Err e
          | Ok r => Ok (if keep then b :: r else r)
          end
      end
  end.

Definition select_where_try (p : book -> result bool) (db : DB) : result (list book) :=
  filter_try p (scan db).

End Sql.

(** ** The methods of [LibraryDatabase] *)

(** [add_book(self, title, author, genre, description, available=1)],
    body. *)
Definition add_book (title author genre description : option string)
    (available : option Z) (db : DB) : outcome Z :=
  Sql.insert title author genre description available db.

(** [get_book_by_id(self, book_id)]. *)
Definition get_book_by_id (book_id : Z) (db : DB) : option book :=
  Sql.select_by_id book_id db.

(** [SET available = ?] on one row. *)
Definition set_available (v : option Z) (c : cols) : cols :=
  Cols (c_title c) (c_author c) (c_genre c) (c_description c) v.

(** [update_availability(self, book_id, available)]. *)
Definition update_availability (book_id : Z) (available : option Z) (db : DB)
    : bool * DB :=
  let '(db', rows_affected) := Sql.update (set_available available) book_id db in
  (0 <? rows_affected, db').

(** Python's [x == 0] for [x] an integer or [None]. *)
Definition py_eq0 (x : option Z) : bool :=
  match x with
  | Some z => z =? 0
  | None => false
  end.

(** [borrow_book(self, book_id)]. *)
Definition borrow_book (book_id : Z) (db : DB) : bool * DB :=
  match get_book_by_id book_id db with
  | None => (false, db)
  | Some book =>
      if py_eq0 (available book) then (false, db)
      else update_availability book_id (Some 0) db
  end.

(** [return_book(self, book_id)]. *)
Definition return_book (book_id : Z) (db : DB) : bool * DB :=
  update_availability book_id (Some 1) db.


(** [get_all_books(self)]. *)
Definition get_all_books (db : DB) : list book :=
  Sql.select_where (fun _ => true) db.

(** [search_books(self, search_term)]: the term goes into the pattern
    as it is, between two [%]. *)
Definition search_books (search_term : string) (db : DB) : result (list book) :=
  let search_pattern := ("%" +:+ search_term +:+ "%")%string in
  Sql.select_where_try
    (fun b => Sql.or_else (Sql.like (title b) search_pattern)
                          (Sql.like (author b) search_pattern))
    db.

(** SQL's [available = v] in a WHERE clause: NULL equals nothing. *)
Definition sql_eq (x : option Z) (v : Z) : bool :=
  match x with
  | Some z => z =? v
  | None => false
  end.

(** [get_available_books(self)]. *)
Definition get_available_books (db : DB) : list book :=
  Sql.select_where (fun b => sql_eq (available b) 1) db.

(** One [column = ?] of the statement [update_book] builds, with the
    value bound to it: the lists [updates] and [values] of the source,
    zipped. *)
Inductive assignment :=
  | SetTitle (v : string)
  | SetAuthor (v : string)
  | SetGenre (v : string)
  | SetDescription (v : string)
  | SetAvailable (v : Z).

Definition assign (c : cols) (a : assignment) : cols :=
  match a with
  | SetTitle v => Cols v (c_author c) (c_genre c) (c_description c) (c_available c)
  | SetAuthor v => Cols (c_title c) v (c_genre c) (c_description c) (c_available c)
  | SetGenre v => Cols (c_title c) (c_author c) (Some v) (c_description c) (c_available c)
  | SetDescription v => Cols (c_title c) (c_author c) (c_genre c) (Some v) (c_available c)
  | SetAvailable v => Cols (c_title c) (c_author c) (c_genre c) (c_description c) (Some v)
  end.

(** [updates.append(...)] under [if x is not None]. *)
Definition append_if {A : Type} (x : option A) (mk : A -> assignment)
    (updates : list assignment) : list assignment :=
  match x with
  | Some v => updates ++ [mk v]
  | None => updates
  end.

(** [update_book(self, book_id, title=None, author=None, genre=None,
    description=None, available=None)], body. *)
Definition update_book (book_id : Z) (title author genre description : option string)
    (available : option Z) (db : DB) : bool * DB :=
  let updates := [] in
  let updates := append_if title SetTitle updates in
  let updates := append_if author SetAuthor updates in
  let updates := append_if genre SetGenre updates in
  let updates := append_if description SetDescription updates in
  let updates := append_if available SetAvailable updates in
  match updates with
  | [] => (false, db)
  | _ :: _ =>
      let '(db', _) := Sql.update (fun c => fold_left assign updates c) book_id db in
      (true, db')
  end.

(** [delete_book(self, book_id)]. *)
Definition delete_book (book_id : Z) (db : DB) : bool * DB :=
  let '(db', rows_affected) := Sql.delete book_id db in
  (0 <? rows_affected, db').

(** [get_stats(self)]. *)
Record stats := Stats { total : Z; st_available : Z; borrowed : Z }.

Definition get_stats (db : DB) : stats :=
  Stats (Z.of_nat (length (Sql.select_where (fun _ => true) db)))
        (Z.of_nat (length (Sql.select_where (fun b => sql_eq (available b) 1) db)))
        (Z.of_nat (length (Sql.select_where (fun b => sql_eq (available b) 0) db))).

(** ** Call sites

    [add_book] declares [title], [author], [genre] and [description]
    without a default and [available=1]; [update_book] gives every
    parameter but [book_id] the default [None]. *)

Definition call_add_book (title author genre description : arg (option string))
    (available : arg (option Z)) (db : DB) : outcome Z :=
  match title, author, genre, description with
  | Passed t, Passed a, Passed g, Passed d =>
      add_book t a g d (with_default (Some 1) available) db
  | _, _, _, _ => Raises TypeError
  end.

Definition call_update_book (book_id : Z)
    (title author genre description : arg (option string))
    (available : arg (option Z)) (db : DB) : bool * DB :=
  update_book book_id (with_default None title) (with_default None author)
    (with_default None genre) (with_default None description)
    (with_default None available) db.

(** A field is supplied when it is passed with a value other than
    [None]. *)
Definition supplied {A : Type} (a : arg (option A)) : bool :=
  match a with
  | Passed (Some _) => true
  | _ => false
  end.

(** ** Sequences of operations *)

Inductive op :=
  | Create (title author genre description : arg (option string))
           (available : arg (option Z))
  | Update (book_id : Z) (title author genre description : arg (option string))
           (available : arg (option Z))
  | SetAvailability (book_id : Z) (available : option Z)
  | Borrow (book_id : Z)
  | Return (book_id : Z)
  | Delete (book_id : Z).

(** The file content after one operation. *)
Definition step (o : op) (db : DB) : DB :=
  match o with
  | Create t a g d av =>
      match call_add_book t a g d av db with
      | Returns _ db' => db'
      | Raises _ => db
      end
  | Update k t a g d av => (call_update_book k t a g d av db).2
  | SetAvailability k av => (update_availability k av db).2
  | Borrow k => (borrow_book k db).2
  | Return k => (return_book k db).2
  | Delete k => (delete_book k db).2
  end.

(** States reachable from the empty store by operations that satisfy
    [P]. *)
Inductive reachable (P : op -> Prop) : DB -> Prop :=
  | reach_empty : reachable P empty_db
  | reach_step o db : reachable P db -> P o -> reachable P (step o db).

Definition flag01 (x : option Z) : Prop := x = Some 0 \/ x = Some 1.

(** The operation hands the store no availability value other than 0
    and 1. *)
Definition flags_ok (o : op) : Prop :=
  match o with
  | Create _ _ _ _ av => flag01 (with_default (Some 1) av)
  | Update _ _ _ _ _ av => with_default None av = None \/ flag01 (with_default None av)
  | SetAvailability _ av => flag01 av
  | _ => True
  end.




(** The pattern [%term%] is within the length the engine accepts. *)
Definition within_like_limit (term : string) : Prop :=
  (N.of_nat (String.length term) + 2 <= Sql.like_limit)%N.

(** The values the binding accepts for an integer column: [None] and
    the integers of 64 bits; on any other Python integer it raises
    [OverflowError] before a statement runs. *)
Definition sqlite_int (v : option Z) : Prop :=
  match v with
  | None => True
  | Some z => - 2 ^ 63 <= z < 2 ^ 63
  end.

(** ** A small store for the examples

    Two calls of [add_book] on the empty store: "Dune" gets id 1, "The
    Lord of the Rings" id 2. *)
Definition dune : book :=
  Book 1 "Dune" "Frank Herbert" None None (Some 1).

Definition lotr : book :=
  Book 2 "The Lord of the Rings" "J.R.R. Tolkien" (Some "Fantasy"%string) None (Some 1).

Definition tolkien_db : DB :=
  step (Create (Passed (Some "The Lord of the Rings"%string))
               (Passed (Some "J.R.R. Tolkien"%string))
               (Passed (Some "Fantasy"%string)) (Passed None) Omitted)
       (step (Create (Passed (Some "Dune"%string)) (Passed (Some "Frank Herbert"%string))
               (Passed None) (Passed None) Omitted) empty_db).

(** The file content after a sequence of operations, first one first. *)
Definition run (ops : list op) (db : DB) : DB :=
  fold_left (fun d o => step o d) ops db.

(** ** The demonstration under [if __name__ == "__main__"]

    The script prints what its calls return; the model keeps the values
    that go into the printed lines, not the text around them. *)
Record demo_output := DemoOutput {
  d_book_id : Z;            (* "Added book with ID: ..." *)
  d_books : list book;      (* one line per row of [get_all_books] *)
  d_results : list book;    (* one line per row of [search_books("Tolkien")] *)
  d_available : Z;          (* [len(available)] *)
  d_borrowed : bool;        (* the line under [if db.borrow_book(book_id)] *)
  d_returned : bool;        (* the line under [if db.return_book(book_id)] *)
  d_stats : stats
}.

(** The calls of the script in order, on the file [LibraryDatabase()]
    opened. *)
Definition demo (db : DB) : outcome demo_output :=
  match call_add_book (Passed (Some "The Lord of the Rings"%string))
                      (Passed (Some "J.R.R. Tolkien"%string))
                      (Passed (Some "Fantasy"%string))
                      (Passed (Some "An epic tale of good versus evil"%string))
                      Omitted db with
  | Raises e => Raises e
  | Returns book_id db1 =>
      let books := get_all_books db1 in
      match search_books "Tolkien" db1 with
      | Err e => Raises e
      | Ok results =>
          let available := get_available_books db1 in
          let '(borrowed, db2) := borrow_book book_id db1 in
          let '(returned, db3) := return_book book_id db2 in
          let stats := get_stats db3 in
          Returns (DemoOutput book_id books results (Z.of_nat (length available))
                              borrowed returned stats) db3
      end
  end.

(** Row ids lie between 1 and the sequence value. *)
Definition ids_in_range (db : DB) : Prop :=
  0 <= seq db /\ forall k c, books db !! k = Some c -> 1 <= k <= seq db.

(** ** Auxiliary notions for the proofs *)

(** What the statement built by [update_book] does to a row: a column
    whose argument is [None] keeps its value. *)
Definition patch (title author genre description : option string)
    (available : option Z) (c : cols) : cols :=
  Cols (default (c_title c) title) (default (c_author c) author)
       (from_option Some (c_genre c) genre)
       (from_option Some (c_description c) description)
       (from_option Some (c_available c) available).

(** Every row of the store has its available flag at 0 or at 1. *)
Definition two_valued (db : DB) : Prop :=
  forall k c, books db !! k = Some c -> flag01 (c_available c).

(** ** Facts about the statements *)

Section SqlFacts.

Implicit Types (db : DB) (k : Z) (c : cols) (f : cols -> cols).

Lemma max_rowid_ge (t : gmap Z cols) k c :
  t !! k = Some c -> k <= Sql.max_rowid t.
Proof.
  unfold Sql.max_rowid. revert t k c.
  apply (map_fold_weak_ind
           (fun (m : Z) (t : gmap Z cols) => forall k c, t !! k = Some c -> k <= m)).
  - intros k c H. rewrite lookup_empty in H. discriminate.
  - intros j x t m Hj IH k c H.
    destruct (decide (j = k)) as [->|Hne].
    + lia.
    + rewrite lookup_insert_ne in H by done. specialize (IH k c H). lia.
Qed.

Lemma next_rowid_fresh db : books db !! Sql.next_rowid db = None.
Proof.
  destruct (books db !! Sql.next_rowid db) as [c|] eqn:E; [|done].
  apply max_rowid_ge in E. unfold Sql.next_rowid in E. lia.
Qed.

Lemma next_rowid_above_seq db : seq db < Sql.next_rowid db.
Proof. unfold Sql.next_rowid. lia. Qed.

Lemma update_fst f k db :
  (Sql.update f k db).1 = MkDB (alter f k (books db)) (seq db).
Proof. reflexivity. Qed.

Lemma update_rowcount f k db :
  (0 <? (Sql.update f k db).2) = bool_decide (is_Some (books db !! k)).
Proof.
  unfold Sql.update; simpl. by destruct (books db !! k).
Qed.

Lemma select_by_id_Some k db b :
  Sql.select_by_id k db = Some b <-> exists c, books db !! k = Some c /\ b = to_book k c.
Proof.
  unfold Sql.select_by_id. destruct (books db !! k) as [c|]; simpl; split.
  - intros [= <-]. eauto.
  - intros (c' & [= <-] & ->). done.
  - discriminate.
  - intros (c' & ? & _). discriminate.
Qed.

Lemma select_by_id_None k db :
  Sql.select_by_id k db = None <-> books db !! k = None.
Proof.
  unfold Sql.select_by_id. destruct (books db !! k); simpl; split; congruence.
Qed.

Lemma to_cols_to_book k c : to_cols (to_book k c) = c.
Proof. by destruct c. Qed.

Lemma to_book_to_cols (b : book) : to_book (id b) (to_cols b) = b.
Proof. by destruct b. Qed.

(** A full scan yields exactly the rows of the table. *)
Lemma scan_spec db (b : book) :
  In b (Sql.scan db) <-> books db !! id b = Some (to_cols b).
Proof.
  unfold Sql.scan. rewrite in_map_iff. split.
  - intros ([k c] & <- & Hin). simpl. rewrite to_cols_to_book.
    apply list_elem_of_In in Hin.
    rewrite merge_sort_Permutation in Hin.
    by apply elem_of_map_to_list in Hin.
  - intros H. exists (id b, to_cols b). split; [apply to_book_to_cols|].
    apply list_elem_of_In. rewrite merge_sort_Permutation.
    by apply elem_of_map_to_list.
Qed.

Lemma select_where_spec (p : book -> bool) db (b : book) :
  In b (Sql.select_where p db) <->
  books db !! id b = Some (to_cols b) /\ p b = true.
Proof. unfold Sql.select_where. by rewrite filter_In, scan_spec. Qed.

Lemma select_where_all db : Sql.select_where (fun _ => true) db = Sql.scan db.
Proof.
  unfold Sql.select_where. induction (Sql.scan db) as [|x l IH]; simpl; congruence.
Qed.

End SqlFacts.

(** ** Availability: [update_availability], [borrow_book], [return_book] *)

Lemma update_availability_eq k v db :
  update_availability k v db =
  (bool_decide (is_Some (books db !! k)),
   MkDB (alter (set_available v) k (books db)) (seq db)).
Proof.
  unfold update_availability.
  pose proof (update_rowcount (set_available v) k db) as Hr.
  unfold Sql.update in *; simpl in *. by rewrite Hr.
Qed.

Lemma update_availability_absent k v db :
  books db !! k = None -> update_availability k v db = (false, db).
Proof.
  intros H. rewrite update_availability_eq. f_equal.
  - apply bool_decide_eq_false_2. rewrite H. by intros [? ?].
  - destruct db as [t s]; simpl in *. f_equal.
    apply map_eq. intros j. rewrite lookup_alter.
    case_decide; subst; [by rewrite H | done].
Qed.

Lemma update_availability_present k v db c :
  books db !! k = Some c ->
  exists db', update_availability k v db = (true, db') /\
    books db' !! k = Some (set_available v c) /\
    (forall j, j <> k -> books db' !! j = books db !! j) /\
    seq db' = seq db.
Proof.
  intros H. rewrite update_availability_eq. eexists. split.
  - f_equal. apply bool_decide_eq_true_2. rewrite H. eauto.
  - simpl. rewrite lookup_alter_eq, H. split; [done|]. split; [|done].
    intros j Hj. by rewrite lookup_alter_ne.
Qed.

(** C1. [borrow_book] returns [False] when no row has the id; returns
    [False] and leaves the store as it is when the row's available flag
    is 0; and when the flag is 1 it sets the flag of that row (and of no
    other) to 0 and returns [True], after which a second [borrow_book]
    on the same id returns [False] and changes nothing. *)
Theorem borrow_book_spec (book_id : Z) (db : DB) :
  (get_book_by_id book_id db = None -> borrow_book book_id db = (false, db)) /\
  (forall b, get_book_by_id book_id db = Some b -> available b = Some 0 ->
     borrow_book book_id db = (false, db)) /\
  (forall b, get_book_by_id book_id db = Some b -> available b = Some 1 ->
     exists db',
       borrow_book book_id db = (true, db') /\
       get_book_by_id book_id db' =
         Some (Book book_id (title b) (author b) (genre b) (description b) (Some 0)) /\
       (forall j, j <> book_id -> get_book_by_id j db' = get_book_by_id j db) /\
       borrow_book book_id db' = (false, db')).
Proof.
  unfold borrow_book. split; [|split].
  - by intros ->.
  - intros b -> ->. reflexivity.
  - intros b Hb Hav. rewrite Hb, Hav. simpl.
    apply select_by_id_Some in Hb as (c & Hc & ->).
    destruct (update_availability_present book_id (Some 0) db c Hc)
      as (db' & Hu & Hk & Hother & _).
    exists db'. split; [done|].
    assert (Hget : get_book_by_id book_id db' =
                   Some (to_book book_id (set_available (Some 0) c))).
    { unfold get_book_by_id, Sql.select_by_id. by rewrite Hk. }
    split; [exact Hget|]. split.
    + intros j Hj. unfold get_book_by_id, Sql.select_by_id. by rewrite Hother.
    + by rewrite Hget.
Qed.

(** C6. [return_book] returns [False] exactly when no row has the id
    (and then changes nothing); otherwise, whatever the flag was, it
    sets the available flag of that row to 1 and returns [True]. *)
Theorem return_book_spec (book_id : Z) (db : DB) :
  ((return_book book_id db).1 = false <-> get_book_by_id book_id db = None) /\
  (get_book_by_id book_id db = None -> return_book book_id db = (false, db)) /\
  (forall b, get_book_by_id book_id db = Some b ->
     exists db',
       return_book book_id db = (true, db') /\
       get_book_by_id book_id db' =
         Some (Book book_id (title b) (author b) (genre b) (description b) (Some 1)) /\
       (forall j, j <> book_id -> get_book_by_id j db' = get_book_by_id j db)).
Proof.
  unfold return_book. split; [|split].
  - rewrite select_by_id_None.
    destruct (books db !! book_id) as [c|] eqn:E.
    + destruct (update_availability_present book_id (Some 1) db c E) as (db' & -> & _).
      simpl. split; discriminate.
    + by rewrite update_availability_absent.
  - intros H%select_by_id_None. by apply update_availability_absent.
  - intros b (c & Hc & ->)%select_by_id_Some.
    destruct (update_availability_present book_id (Some 1) db c Hc)
      as (db' & Hu & Hk & Hother & _).
    exists db'. split; [done|].
    unfold get_book_by_id, Sql.select_by_id. split.
    + by rewrite Hk.
    + intros j Hj. by rewrite Hother.
Qed.

(** ** [delete_book] *)

Lemma delete_book_eq k db :
  delete_book k db =
  (bool_decide (is_Some (books db !! k)), MkDB (delete k (books db)) (seq db)).
Proof.
  unfold delete_book, Sql.delete. f_equal.
  by destruct (books db !! k).
Qed.

(** C7. [delete_book] returns [True] exactly when a row with the id was
    present; that row is then gone and no other row is touched; it
    returns [False] and changes nothing when there is no such row; after
    a delete [get_book_by_id] finds nothing and a second [delete_book]
    returns [False]. *)
Theorem delete_book_spec (book_id : Z) (db : DB) :
  ((delete_book book_id db).1 = true <-> is_Some (get_book_by_id book_id db)) /\
  (get_book_by_id book_id db = None -> delete_book book_id db = (false, db)) /\
  get_book_by_id book_id (delete_book book_id db).2 = None /\
  (forall j, j <> book_id ->
     get_book_by_id j (delete_book book_id db).2 = get_book_by_id j db) /\
  (delete_book book_id (delete_book book_id db).2).1 = false.
Proof.
  rewrite !delete_book_eq. simpl. unfold get_book_by_id, Sql.select_by_id. simpl.
  repeat split.
  - intros H%bool_decide_eq_true_1. by apply fmap_is_Some.
  - intros H%fmap_is_Some. by apply bool_decide_eq_true_2.
  - intros H. destruct (books db !! book_id) as [c|] eqn:E; [discriminate|].
    f_equal. destruct db as [t s]; simpl in *. f_equal. by apply delete_id.
  - by rewrite lookup_delete_eq.
  - intros j Hj. by rewrite lookup_delete_ne.
  - apply bool_decide_eq_false_2. rewrite lookup_delete_eq. by intros [? ?].
Qed.

(** ** [update_book] *)

Section UpdateBook.

Variables (k : Z) (t a g d : option string) (av : option Z) (db : DB).

Lemma update_book_lookup j :
  books (update_book k t a g d av db).2 !! j =
  if decide (k = j) then patch t a g d av <$> books db !! j else books db !! j.
Proof.
  destruct t, a, g, d, av; simpl; rewrite ?lookup_alter;
    case_decide; subst; try done;
    by destruct (books db !! j) as [[]|].
Qed.

Lemma update_book_seq : seq (update_book k t a g d av db).2 = seq db.
Proof. by destruct t, a, g, d, av. Qed.

Lemma update_book_get j :
  get_book_by_id j (update_book k t a g d av db).2 =
  if decide (k = j)
  then (fun b => to_book j (patch t a g d av (to_cols b))) <$> get_book_by_id j db
  else get_book_by_id j db.
Proof.
  unfold get_book_by_id, Sql.select_by_id. rewrite update_book_lookup.
  case_decide; [|done]. destruct (books db !! j) as [c|]; simpl; [|done].
  by rewrite to_cols_to_book.
Qed.

End UpdateBook.

(** C2. [update_book] with no field supplied leaves the store as it is
    and returns [False]; with at least one field supplied it returns
    [True], whether or not a row with the id exists. *)
Theorem update_book_return_value (book_id : Z)
    (title author genre description : arg (option string))
    (available : arg (option Z)) (db : DB) :
  (supplied title || supplied author || supplied genre ||
   supplied description || supplied available = false ->
   call_update_book book_id title author genre description available db = (false, db)) /\
  (supplied title || supplied author || supplied genre ||
   supplied description || supplied available = true ->
   (call_update_book book_id title author genre description available db).1 = true).
Proof.
  unfold call_update_book. split.
  - destruct title as [|[?|]], author as [|[?|]], genre as [|[?|]],
      description as [|[?|]], available as [|[?|]]; simpl;
      intros H; try discriminate H; reflexivity.
  - destruct title as [|[?|]], author as [|[?|]], genre as [|[?|]],
      description as [|[?|]], available as [|[?|]]; simpl;
      intros H; try discriminate H; reflexivity.
Qed.

(** C9. [update_book] changes only the supplied fields of the row with
    the given id: a supplied field takes the supplied value, a field not
    supplied keeps its value, the id stays, no row appears, and every
    row with another id is as it was. *)
Theorem update_book_frame (book_id : Z) (t a g d : arg (option string))
    (av : arg (option Z)) (db : DB) :
  let db' := (call_update_book book_id t a g d av db).2 in
  (forall j, j <> book_id -> get_book_by_id j db' = get_book_by_id j db) /\
  (get_book_by_id book_id db = None -> get_book_by_id book_id db' = None) /\
  (forall b, get_book_by_id book_id db = Some b ->
     exists b', get_book_by_id book_id db' = Some b' /\ id b' = id b /\
       (if supplied t then t = Passed (Some (title b')) else title b' = title b) /\
       (if supplied a then a = Passed (Some (author b')) else author b' = author b) /\
       (if supplied g then g = Passed (genre b') else genre b' = genre b) /\
       (if supplied d then d = Passed (description b')
        else description b' = description b) /\
       (if supplied av then av = Passed (available b')
        else available b' = available b)).
Proof.
  unfold call_update_book. cbv zeta. split; [|split].
  - intros j Hj. rewrite update_book_get. by case_decide.
  - intros H. rewrite update_book_get. case_decide; [|done]. by rewrite H.
  - intros b Hb. rewrite update_book_get. case_decide; [|done]. rewrite Hb. simpl.
    eexists. split; [reflexivity|].
    assert (id b = book_id) as Hid.
    { apply select_by_id_Some in Hb as (c & _ & ->). done. }
    destruct b as [i bt ba bg bd bav]; simpl in *.
    destruct t as [|[?|]], a as [|[?|]], g as [|[?|]], d as [|[?|]], av as [|[?|]];
      simpl; by repeat split.
Qed.

(** C10. In [update_book], passing [None] for a field is the same call
    as leaving the field out: same return value, same resulting store.
    Hence no call of [update_book] turns a genre, description or
    available flag that holds a value into an absent one. *)
Theorem update_book_none_is_omitted (book_id : Z) (t a g d : arg (option string))
    (av : arg (option Z)) (db : DB) :
  call_update_book book_id (Passed None) a g d av db =
    call_update_book book_id Omitted a g d av db /\
  call_update_book book_id t (Passed None) g d av db =
    call_update_book book_id t Omitted g d av db /\
  call_update_book book_id t a (Passed None) d av db =
    call_update_book book_id t a Omitted d av db /\
  call_update_book book_id t a g (Passed None) av db =
    call_update_book book_id t a g Omitted av db /\
  call_update_book book_id t a g d (Passed None) db =
    call_update_book book_id t a g d Omitted db /\
  (forall b b',
     get_book_by_id book_id db = Some b ->
     get_book_by_id book_id (call_update_book book_id t a g d av db).2 = Some b' ->
     (is_Some (genre b) -> is_Some (genre b')) /\
     (is_Some (description b) -> is_Some (description b')) /\
     (is_Some (available b) -> is_Some (available b'))).
Proof.
  repeat (split; [reflexivity|]).
  unfold call_update_book. intros b b' Hb. rewrite update_book_get.
  case_decide; [|done]. rewrite Hb. simpl. intros [= <-]. simpl.
  destruct g as [|[?|]], d as [|[?|]], av as [|[?|]]; simpl; repeat split; eauto.
Qed.

(** ** [add_book] *)

Lemma add_book_eq (t a : string) (g d : option string) (av : option Z) (db : DB) :
  add_book (Some t) (Some a) g d av db =
  Returns (Sql.next_rowid db)
    (MkDB (<[Sql.next_rowid db := Cols t a g d av]> (books db)) (Sql.next_rowid db)).
Proof. reflexivity. Qed.

(** A required column given [None] is rejected, and nothing is stored. *)
Lemma add_book_null (t a g d : option string) (av : option Z) (db : DB) :
  t = None \/ a = None -> add_book t a g d av db = Raises IntegrityError.
Proof. intros [-> | ->]; [done|]. by destruct t. Qed.

(** The id [add_book] returns is new: no row carries it, it exceeds
    every id handed out before, and the rows already present stay. *)
Lemma add_book_fresh (t a g d : option string) (av : option Z) (db db' : DB) (k : Z) :
  add_book t a g d av db = Returns k db' ->
  get_book_by_id k db = None /\ seq db < k /\ seq db' = k /\
  (forall j, j <> k -> get_book_by_id j db' = get_book_by_id j db).
Proof.
  destruct t as [t'|], a as [a'|]; try discriminate.
  rewrite add_book_eq. intros [= <- <-]. simpl. repeat split.
  - apply select_by_id_None, next_rowid_fresh.
  - apply next_rowid_above_seq.
  - intros j Hj. unfold get_book_by_id, Sql.select_by_id. simpl.
    by rewrite lookup_insert_ne.
Qed.

(** With [genre] and [description] passed as [None] and [available] left
    to its default, [add_book] stores an available book without genre
    and description under a new id. *)
Lemma call_add_book_defaults (t a : string) (db : DB) :
  exists k db',
    call_add_book (Passed (Some t)) (Passed (Some a)) (Passed None) (Passed None)
                  Omitted db = Returns k db' /\
    get_book_by_id k db = None /\
    get_book_by_id k db' = Some (Book k t a None None (Some 1)).
Proof.
  unfold call_add_book, with_default. rewrite add_book_eq.
  eexists _, _. split; [reflexivity|]. split.
  - apply select_by_id_None, next_rowid_fresh.
  - unfold get_book_by_id, Sql.select_by_id. simpl. by rewrite lookup_insert_eq.
Qed.

(** C5. A call of [add_book] that passes only [title] and [author]
    stores nothing: [genre] and [description] have no default in the
    signature, so the call raises [TypeError]. *)
Theorem add_book_title_author_only (t a : option string) (db : DB) :
  call_add_book (Passed t) (Passed a) Omitted Omitted Omitted db = Raises TypeError.
Proof. reflexivity. Qed.

(** C8. Round trip: [add_book] with a title and an author returns an id,
    and [get_book_by_id] on that id right after yields the row made of
    that id and the five values passed in. *)
Theorem add_book_round_trip (t a : string) (g d : option string) (av : option Z)
    (db : DB) :
  exists k db',
    add_book (Some t) (Some a) g d av db = Returns k db' /\
    get_book_by_id k db' = Some (Book k t a g d av).
Proof.
  rewrite add_book_eq. eexists _, _. split; [reflexivity|].
  unfold get_book_by_id, Sql.select_by_id. simpl. by rewrite lookup_insert_eq.
Qed.

(** ** The available flag along sequences of operations *)

Lemma two_valued_empty : two_valued empty_db.
Proof. intros k c H. simpl in H. rewrite lookup_empty in H. discriminate. Qed.

Lemma two_valued_update_availability k v db :
  flag01 v -> two_valued db -> two_valued (update_availability k v db).2.
Proof.
  intros Hv Hdb j c. rewrite update_availability_eq. simpl.
  rewrite lookup_alter. case_decide; [subst j|apply Hdb].
  destruct (books db !! k) as [c0|]; simpl; [|discriminate].
  by intros [= <-].
Qed.

Lemma two_valued_step o db : flags_ok o -> two_valued db -> two_valued (step o db).
Proof.
  intros Ho Hdb.
  destruct o as [t a g d av|k t a g d av|k av|k|k|k]; simpl in Ho; unfold step.
  - unfold call_add_book.
    destruct t as [|[t'|]], a as [|[a'|]], g as [|g'], d as [|d']; try exact Hdb.
    rewrite add_book_eq. intros j c. simpl. rewrite lookup_insert.
    case_decide; [|apply Hdb]. by intros [= <-].
  - intros j c. unfold call_update_book. rewrite update_book_lookup.
    case_decide; [|apply Hdb].
    destruct (books db !! j) as [c0|] eqn:E; simpl; [|discriminate].
    intros [= <-]. simpl.
    destruct Ho as [-> | Ho]; simpl; [by eapply Hdb|].
    destruct (with_default None av); simpl; [done | by eapply Hdb].
  - by apply two_valued_update_availability.
  - unfold borrow_book. destruct (get_book_by_id k db) as [b|]; [|done].
    destruct (py_eq0 (available b)); [done|].
    apply two_valued_update_availability; [by left | done].
  - unfold return_book. apply two_valued_update_availability; [by right | done].
  - intros j c. rewrite delete_book_eq. simpl. rewrite lookup_delete.
    case_decide; [discriminate | apply Hdb].
Qed.

(** C3, as the code has it. In every state reached from the empty store
    by create, update, setAvailability, borrow, return and delete
    operations that pass no availability value other than 0 and 1, the
    available flag of every row is 0 or 1. *)
Theorem available_two_valued (db : DB) :
  reachable flags_ok db ->
  forall k b, get_book_by_id k db = Some b -> flag01 (available b).
Proof.
  intros Hr. assert (two_valued db) as Hdb.
  { induction Hr as [|o db Hr IH Ho]; [apply two_valued_empty|].
    by apply two_valued_step. }
  intros k b (c & Hc & ->)%select_by_id_Some. simpl. by eapply Hdb.
Qed.

(** ** [search_books] and the [LIKE] operator *)

Section Like.

Implicit Types (p s : list N) (c : N) (z : list ascii).

Lemma list_ascii_of_string_app (x y : string) :
  list_ascii_of_string (x +:+ y) = list_ascii_of_string x ++ list_ascii_of_string y.
Proof. induction x as [|c x IH]; [done|]. simpl. by rewrite IH. Qed.

Lemma string_length_list (x : string) :
  String.length x = length (list_ascii_of_string x).
Proof. induction x as [|c x IH]; [done|]. simpl. by rewrite IH. Qed.

Lemma like_any_nil p : Sql.like_chars (37%N :: p) [] = Sql.like_chars p [].
Proof. simpl. apply orb_false_r. Qed.

Lemma like_any_cons p c s :
  Sql.like_chars (37%N :: p) (c :: s) =
  Sql.like_chars p (c :: s) || Sql.like_chars (37%N :: p) s.
Proof. reflexivity. Qed.


Lemma like_literal c p s :
  c <> 37%N -> c <> 95%N ->
  Sql.like_chars (c :: p) s =
  match s with
  | [] => false
  | d :: s' => (Sql.fold_case c =? Sql.fold_case d)%N && Sql.like_chars p s'
  end.
Proof.
  intros H1 H2. simpl.
  apply N.eqb_neq in H1. apply N.eqb_neq in H2. by rewrite H1, H2.
Qed.



(** One step of [utf8_chars]. *)
Lemma utf8_chars_cons (pending : option N) (b : ascii) z :
  Sql.utf8_chars pending (b :: z) =
  let n := N_of_ascii b in
  let first :=
    if (n =? 0)%N then []
    else if (n <? 192)%N then n :: Sql.utf8_chars None z
    else Sql.utf8_chars (Some (Sql.utf8_trans1 n)) z in
  match pending with
  | Some c =>
      if ((128 <=? n) && (n <? 192))%N
      then Sql.utf8_chars (Some ((c * 64 + n mod 64) mod 4294967296)%N) z
      else Sql.utf8_fix c :: first
  | None => first
  end.
Proof. reflexivity. Qed.







(** A pattern [%term%] within the limit is compared, not refused. *)
Lemma like_within (term x : string) :
  within_like_limit term ->
  Sql.like x ("%" +:+ term +:+ "%") =
  Ok (Sql.like_chars (Sql.text_chars ("%" +:+ term +:+ "%")) (Sql.text_chars x)).
Proof.
  unfold within_like_limit, Sql.like. intros H.
  assert (String.length ("%" +:+ term +:+ "%") = S (S (String.length term))) as ->.
  { rewrite !string_length_list, !list_ascii_of_string_app, !length_app. simpl. lia. }
  destruct (N.ltb_spec Sql.like_limit (N.of_nat (S (S (String.length term)))));
    [lia | done].
Qed.


Lemma filter_try_ok (p : book -> result bool) (q : book -> bool) (l : list book) :
  (forall b, p b = Ok (q b)) -> Sql.filter_try p l = Ok (List.filter q l).
Proof.
  intros H. induction l as [|b l IH]; simpl; [done|].
  rewrite H, IH. by destruct (q b).
Qed.

Lemma filter_try_ext (p p' : book -> result bool) (l : list book) :
  (forall b, p b = p' b) -> Sql.filter_try p l = Sql.filter_try p' l.
Proof. intros H. induction l as [|b l IH]; simpl; [done|]. by rewrite H, IH. Qed.

End Like.

Lemma get_all_books_spec (db : DB) (b : book) :
  In b (get_all_books db) <-> get_book_by_id (id b) db = Some b.
Proof.
  unfold get_all_books. rewrite select_where_spec, select_by_id_Some. split.
  - intros [H _]. exists (to_cols b). by rewrite to_book_to_cols.
  - intros (c & Hc & Hb). split; [|done]. rewrite Hb at 2. by rewrite to_cols_to_book.
Qed.


(** ** The examples of the specification, evaluated *)

Example tolkien_db_rows : get_all_books tolkien_db = [dune; lotr].
Proof. vm_compute. reflexivity. Qed.



(** A term that is one NUL character gives the pattern [%]: every row
    is returned. *)
Example search_nul_term :
  search_books (String (ascii_of_N 0) "") tolkien_db = Ok [dune; lotr].
Proof. vm_compute. reflexivity. Qed.

(** A title is read up to its first NUL: "a", NUL, "b" is not found by
    "b", and is found by "a". *)
Example search_behind_nul :
  let db := step (Create (Passed (Some (String "a" (String (ascii_of_N 0) "b"))))
                         (Passed (Some "x"%string)) (Passed None) (Passed None) Omitted)
                 empty_db in
  search_books "b" db = Ok [] /\
  search_books "a" db =
    Ok [Book 1 (String "a" (String (ascii_of_N 0) "b")) "x" None None (Some 1)].
Proof. vm_compute. split; reflexivity. Qed.

(** [_] stands for one character, of one byte or of several: "a_b"
    finds the title "a", e acute (bytes 195, 169), "b". *)
Example search_two_byte_character :
  let t := String "a" (String (ascii_of_N 195) (String (ascii_of_N 169) "b")) in
  search_books "a_b"
    (step (Create (Passed (Some t)) (Passed (Some "x"%string)) (Passed None)
                  (Passed None) Omitted) empty_db) =
  Ok [Book 1 t "x" None None (Some 1)].
Proof. vm_compute. reflexivity. Qed.

(** A term of 49999 bytes makes a pattern of 50001: the statement fails
    on the first row it looks at, and returns nothing on an empty
    table. *)
Example search_long_term :
  let term := string_of_list_ascii (repeat "a"%char 49999) in
  search_books term tolkien_db = Err OperationalError /\
  search_books term empty_db = Ok [].
Proof. vm_compute. split; reflexivity. Qed.

Example stats_after_borrow :
  get_stats (step (Borrow 1) tolkien_db) = Stats 2 1 1.
Proof. vm_compute. reflexivity. Qed.

Example get_unknown_id : get_book_by_id 3 tolkien_db = None.
Proof. vm_compute. reflexivity. Qed.

(** ** Where the specification says more than the code does *)

(** C3 as stated fails: nothing checks the availability value that
    [add_book] is given, so one create with [available=2] leaves a row
    whose flag is neither 0 nor 1. *)
Lemma available_not_two_valued :
  ~ (forall db, reachable (fun _ => True) db ->
       forall k b, get_book_by_id k db = Some b -> flag01 (available b)).
Proof.
  intros H.
  pose (o := Create (Passed (Some "Dune"%string)) (Passed (Some "Frank Herbert"%string))
                    (Passed None) (Passed None) (Passed (Some 2))).
  assert (reachable (fun _ => True) (step o empty_db)) as Hr.
  { apply reach_step; [apply reach_empty | exact I]. }
  specialize (H _ Hr 1 (Book 1 "Dune" "Frank Herbert" None None (Some 2))).
  destruct H as [H | H]; [vm_compute; reflexivity | discriminate H | discriminate H].
Qed.



(** ** The theorems at concrete inputs *)

Lemma borrow_book_spec_witness :
  borrow_book 3 tolkien_db = (false, tolkien_db) /\
  borrow_book 2 (step (Borrow 2) tolkien_db) = (false, step (Borrow 2) tolkien_db) /\
  exists db', borrow_book 2 tolkien_db = (true, db') /\
              get_book_by_id 2 db' =
                Some (Book 2 "The Lord of the Rings" "J.R.R. Tolkien"
                           (Some "Fantasy"%string) None (Some 0)) /\
              borrow_book 2 db' = (false, db').
Proof.
  split; [|split].
  - apply (borrow_book_spec 3 tolkien_db). vm_compute. reflexivity.
  - apply (proj1 (proj2 (borrow_book_spec 2 (step (Borrow 2) tolkien_db)))
             (Book 2 "The Lord of the Rings" "J.R.R. Tolkien"
                   (Some "Fantasy"%string) None (Some 0))).
    + vm_compute. reflexivity.
    + reflexivity.
  - destruct (proj2 (proj2 (borrow_book_spec 2 tolkien_db)) lotr)
      as (db' & H1 & H2 & _ & H3).
    + vm_compute. reflexivity.
    + reflexivity.
    + exists db'. split; [exact H1|]. split; [exact H2 | exact H3].
Defined.

Lemma return_book_spec_witness :
  return_book 3 tolkien_db = (false, tolkien_db) /\
  exists db', return_book 2 tolkien_db = (true, db') /\
              get_book_by_id 2 db' = Some lotr.
Proof.
  split.
  - apply (return_book_spec 3 tolkien_db). vm_compute. reflexivity.
  - destruct (proj2 (proj2 (return_book_spec 2 tolkien_db)) lotr)
      as (db' & H1 & H2 & _).
    + vm_compute. reflexivity.
    + exists db'. split; [exact H1 | exact H2].
Defined.

Lemma delete_book_spec_witness :
  (delete_book 1 tolkien_db).1 = true /\
  delete_book 3 tolkien_db = (false, tolkien_db) /\
  get_book_by_id 2 (delete_book 1 tolkien_db).2 = Some lotr.
Proof.
  split; [|split].
  - apply (delete_book_spec 1 tolkien_db). exists dune. vm_compute. reflexivity.
  - apply (delete_book_spec 3 tolkien_db). vm_compute. reflexivity.
  - rewrite (proj1 (proj2 (proj2 (proj2 (delete_book_spec 1 tolkien_db)))) 2).
    + vm_compute. reflexivity.
    + discriminate.
Defined.

Lemma update_book_return_value_witness :
  call_update_book 3 Omitted (Passed None) Omitted Omitted Omitted tolkien_db =
    (false, tolkien_db) /\
  (call_update_book 3 Omitted Omitted (Passed (Some "Epic"%string)) Omitted Omitted
     tolkien_db).1 = true.
Proof.
  split.
  - apply (update_book_return_value 3 Omitted (Passed None) Omitted Omitted Omitted
             tolkien_db).
    reflexivity.
  - apply (update_book_return_value 3 Omitted Omitted (Passed (Some "Epic"%string))
             Omitted Omitted tolkien_db).
    reflexivity.
Defined.

Lemma update_book_frame_witness :
  get_book_by_id 1
    (call_update_book 2 Omitted Omitted (Passed (Some "Epic"%string)) Omitted
       (Passed (Some 0)) tolkien_db).2 = Some dune /\
  exists b',
    get_book_by_id 2
      (call_update_book 2 Omitted Omitted (Passed (Some "Epic"%string)) Omitted
         (Passed (Some 0)) tolkien_db).2 = Some b' /\
    title b' = "The Lord of the Rings"%string /\ genre b' = Some "Epic"%string /\
    available b' = Some 0.
Proof.
  pose proof (update_book_frame 2 Omitted Omitted (Passed (Some "Epic"%string)) Omitted
                (Passed (Some 0)) tolkien_db) as (Hother & _ & Hrow).
  split.
  - rewrite Hother; [vm_compute; reflexivity | discriminate].
  - destruct (Hrow lotr) as (b' & Hb' & _ & Ht & _ & Hg & _ & Hav).
    + vm_compute. reflexivity.
    + exists b'. split; [exact Hb'|]. simpl in Ht, Hg, Hav.
      split; [exact Ht|]. split; [congruence | congruence].
Defined.

Lemma update_book_none_is_omitted_witness :
  call_update_book 2 Omitted Omitted (Passed None) Omitted Omitted tolkien_db =
    call_update_book 2 Omitted Omitted Omitted Omitted Omitted tolkien_db /\
  is_Some (genre lotr).
Proof.
  pose proof (update_book_none_is_omitted 2 Omitted Omitted (Passed None) Omitted Omitted
                tolkien_db) as (_ & _ & Hg & _ & _ & Hkeep).
  split; [exact Hg|].
  apply (Hkeep lotr lotr).
  - vm_compute. reflexivity.
  - vm_compute. reflexivity.
  - exists "Fantasy"%string. reflexivity.
Defined.

Lemma available_two_valued_witness :
  reachable flags_ok (step (Borrow 2) tolkien_db) /\
  flag01 (available (Book 2 "The Lord of the Rings" "J.R.R. Tolkien"
                          (Some "Fantasy"%string) None (Some 0))).
Proof.
  assert (reachable flags_ok (step (Borrow 2) tolkien_db)) as Hr.
  { unfold tolkien_db.
    apply reach_step; [apply reach_step; [apply reach_step; [apply reach_empty|]|]|].
    - right. reflexivity.
    - right. reflexivity.
    - exact I. }
  split; [exact Hr|].
  apply (available_two_valued (step (Borrow 2) tolkien_db) Hr 2).
  vm_compute. reflexivity.
Defined.


(** * Further properties of the methods *)

(** ** Rows and counts *)

Section Counting.

Implicit Types (db : DB) (p : book -> bool) (m : gmap Z cols).

Lemma filter_length_perm p (l1 l2 : list book) :
  l1 ≡ₚ l2 -> length (List.filter p l1) = length (List.filter p l2).
Proof.
  induction 1 as [|x l1 l2 _ IH|x y l|l1 l2 l3 _ IH1 _ IH2]; simpl.
  - done.
  - destruct (p x); simpl; congruence.
  - destruct (p x), (p y); reflexivity.
  - congruence.
Qed.

Lemma scan_insert m k c s s' :
  m !! k = None ->
  Sql.scan (MkDB (<[k := c]> m) s) ≡ₚ to_book k c :: Sql.scan (MkDB m s').
Proof.
  intros H. unfold Sql.scan. simpl.
  etransitivity.
  - apply Permutation_map. rewrite merge_sort_Permutation.
    apply map_to_list_insert, H.
  - simpl. apply perm_skip, Permutation_map. symmetry. apply merge_sort_Permutation.
Qed.

Lemma select_where_insert p m k c s s' :
  m !! k = None ->
  length (Sql.select_where p (MkDB (<[k := c]> m) s)) =
  ((if p (to_book k c) then 1 else 0) + length (Sql.select_where p (MkDB m s')))%nat.
Proof.
  intros H. unfold Sql.select_where.
  rewrite (filter_length_perm p _ _ (scan_insert m k c s s' H)). simpl.
  by destruct (p (to_book k c)).
Qed.

Lemma alter_as_insert (f : cols -> cols) m k c :
  m !! k = Some c -> alter f k m = <[k := f c]> (delete k m).
Proof.
  intros H. apply map_eq. intros j. rewrite lookup_alter, lookup_insert.
  case_decide; [subst j; by rewrite H|]. by rewrite lookup_delete_ne.
Qed.

(** Rows matching [p] before and after one row is rewritten. *)
Lemma select_where_alter p (f : cols -> cols) db k c :
  books db !! k = Some c ->
  ((if p (to_book k c) then 1 else 0) +
   length (Sql.select_where p (MkDB (alter f k (books db)) (seq db))) =
   (if p (to_book k (f c)) then 1 else 0) + length (Sql.select_where p db))%nat.
Proof.
  intros H. rewrite (alter_as_insert f _ k c H).
  rewrite (select_where_insert p (delete k (books db)) k (f c) (seq db) (seq db))
    by apply lookup_delete_eq.
  destruct db as [m s]; simpl in *.
  rewrite <- (insert_delete_id m k c H) at 2.
  rewrite (select_where_insert p (delete k m) k c s s) by apply lookup_delete_eq.
  lia.
Qed.

Lemma select_where_delete p db k c :
  books db !! k = Some c ->
  length (Sql.select_where p db) =
  ((if p (to_book k c) then 1 else 0) +
   length (Sql.select_where p (MkDB (delete k (books db)) (seq db))))%nat.
Proof.
  intros H. destruct db as [m s]; simpl in *.
  rewrite <- (insert_delete_id m k c H) at 1.
  by rewrite (select_where_insert p (delete k m) k c s s) by apply lookup_delete_eq.
Qed.

Lemma scan_ids_NoDup db : NoDup (map id (Sql.scan db)).
Proof.
  unfold Sql.scan. rewrite map_map. simpl.
  assert (map (fun kc : Z * cols => kc.1) (@merge_sort _ Sql.key_le Sql.key_le_dec (map_to_list (books db)))
          ≡ₚ (map_to_list (books db)).*1) as ->.
  { rewrite merge_sort_Permutation. reflexivity. }
  apply NoDup_fst_map_to_list.
Qed.

Lemma filter_disjoint_length (p q : book -> bool) (l : list book) :
  (forall b, In b l -> p b && q b = false) ->
  (length (List.filter p l) + length (List.filter q l) <= length l)%nat.
Proof.
  induction l as [|x l IH]; intros H; simpl; [lia|].
  assert (length (List.filter p l) + length (List.filter q l) <= length l)%nat
    by (apply IH; intros b Hb; apply H; by right).
  specialize (H x (or_introl eq_refl)).
  destruct (p x), (q x); simpl in *; try discriminate; lia.
Qed.

Lemma filter_cover_length (p q : book -> bool) (l : list book) :
  (forall b, In b l -> xorb (p b) (q b) = true) ->
  (length (List.filter p l) + length (List.filter q l) = length l)%nat.
Proof.
  induction l as [|x l IH]; intros H; simpl; [lia|].
  assert (length (List.filter p l) + length (List.filter q l) = length l)%nat
    by (apply IH; intros b Hb; apply H; by right).
  specialize (H x (or_introl eq_refl)).
  destruct (p x), (q x); simpl in *; try discriminate; lia.
Qed.

End Counting.

(** X1. [get_all_books] returns exactly the rows of the table, each
    under its id and no id twice. *)
Theorem get_all_books_complete (db : DB) :
  (forall b, In b (get_all_books db) <-> get_book_by_id (id b) db = Some b) /\
  NoDup (map id (get_all_books db)).
Proof.
  split.
  - intros b. unfold get_all_books.
    rewrite select_where_spec, select_by_id_Some. split.
    + intros [H _]. exists (to_cols b). by rewrite to_book_to_cols.
    + intros (c & Hc & Hb). split; [|done]. rewrite Hb at 2. by rewrite to_cols_to_book.
  - unfold get_all_books. rewrite select_where_all. apply scan_ids_NoDup.
Qed.

(** X2. [get_available_books] returns exactly the rows whose available
    flag equals 1: a row whose flag is 0, NULL or any other number is
    left out. *)
Theorem get_available_books_spec (db : DB) (b : book) :
  In b (get_available_books db) <->
  get_book_by_id (id b) db = Some b /\ available b = Some 1.
Proof.
  unfold get_available_books. rewrite select_where_spec, select_by_id_Some.
  assert (sql_eq (available b) 1 = true <-> available b = Some 1) as ->.
  { unfold sql_eq. destruct (available b) as [z|]; [|split; discriminate].
    rewrite Z.eqb_eq. split; congruence. }
  split.
  - intros [H Hav]. split; [|done]. exists (to_cols b). by rewrite to_book_to_cols.
  - intros [(c & Hc & Hb) Hav]. split; [|done].
    rewrite Hb at 2. by rewrite to_cols_to_book.
Qed.

(** X3. The three counts of [get_stats]: [total] is the number of rows,
    [available] the length of [get_available_books], and available plus
    borrowed never exceeds the total; the two add up to the total when
    every flag in the store is 0 or 1. *)
Theorem get_stats_counts (db : DB) :
  total (get_stats db) = Z.of_nat (length (get_all_books db)) /\
  st_available (get_stats db) = Z.of_nat (length (get_available_books db)) /\
  st_available (get_stats db) + borrowed (get_stats db) <= total (get_stats db) /\
  (two_valued db ->
   st_available (get_stats db) + borrowed (get_stats db) = total (get_stats db)).
Proof.
  split; [reflexivity|]. split; [reflexivity|]. simpl.
  unfold Sql.select_where. split.
  - rewrite <- Nat2Z.inj_add. apply inj_le.
    etransitivity; [apply filter_disjoint_length|].
    + intros b _. destruct (available b) as [z|]; simpl; [|done].
      destruct (z =? 1) eqn:E1, (z =? 0) eqn:E0; try done. lia.
    + clear. induction (Sql.scan db) as [|x l IH]; simpl; lia.
  - intros Hdb. rewrite <- Nat2Z.inj_add. f_equal.
    etransitivity; [apply filter_cover_length|].
    + intros b Hb%scan_spec. apply Hdb in Hb. simpl in Hb.
      by destruct Hb as [-> | ->].
    + clear. induction (Sql.scan db) as [|x l IH]; simpl; lia.
Qed.

(** ** Availability *)

Lemma set_available_twice (v w : option Z) (c : cols) :
  set_available v (set_available w c) = set_available v c.
Proof. reflexivity. Qed.

Lemma db_eq (db db' : DB) :
  seq db = seq db' -> (forall j, books db !! j = books db' !! j) -> db = db'.
Proof.
  destruct db as [m s], db' as [m' s']; simpl. intros -> H. f_equal. by apply map_eq.
Qed.

(** Setting the flag of a row that holds [w] back to [w] after any other
    value undoes the change. *)
Lemma set_available_undo (k : Z) (v : option Z) (c : cols) (db : DB) :
  books db !! k = Some c ->
  MkDB (alter (set_available (c_available c)) k
          (alter (set_available v) k (books db))) (seq db) = db.
Proof.
  intros H. apply db_eq; [done|]. intros j. simpl.
  destruct (decide (j = k)) as [->|Hj].
  - rewrite !lookup_alter_eq, H. simpl. by destruct c.
  - by rewrite !lookup_alter_ne.
Qed.

(** The counts of [get_stats] when the flag of row [k] goes from its
    value in [c] to [v]. *)
Lemma get_stats_set_available (k : Z) (v : option Z) (c : cols) (db : DB) :
  books db !! k = Some c ->
  let db' := MkDB (alter (set_available v) k (books db)) (seq db) in
  total (get_stats db') = total (get_stats db) /\
  st_available (get_stats db') + (if sql_eq (c_available c) 1 then 1 else 0) =
    st_available (get_stats db) + (if sql_eq v 1 then 1 else 0) /\
  borrowed (get_stats db') + (if sql_eq (c_available c) 0 then 1 else 0) =
    borrowed (get_stats db) + (if sql_eq v 0 then 1 else 0).
Proof.
  intros H db'. unfold db'. simpl.
  pose proof (select_where_alter (fun _ => true) (set_available v) db k c H) as H1.
  pose proof (select_where_alter (fun b => sql_eq (available b) 1)
                (set_available v) db k c H) as H2.
  pose proof (select_where_alter (fun b => sql_eq (available b) 0)
                (set_available v) db k c H) as H3.
  simpl in H1, H2, H3. repeat split.
  - lia.
  - destruct (sql_eq (c_available c) 1), (sql_eq v 1); lia.
  - destruct (sql_eq (c_available c) 0), (sql_eq v 0); lia.
Qed.

(** X4. For a value the binding accepts ([None] or an integer of 64
    bits), [update_availability] returns [True] exactly when a row has
    the id; it then stores that value, be it 0, 1 or anything else in
    the range, in the available column of that row and changes nothing
    else; on a missing id the store stays as it is; and doing the same
    call a second time changes nothing more. *)
Theorem update_availability_spec (book_id : Z) (v : option Z) (db : DB) :
  sqlite_int v ->
  ((update_availability book_id v db).1 = true <->
   is_Some (get_book_by_id book_id db)) /\
  (get_book_by_id book_id db = None -> update_availability book_id v db = (false, db)) /\
  (forall b, get_book_by_id book_id db = Some b ->
     get_book_by_id book_id (update_availability book_id v db).2 =
     Some (Book book_id (title b) (author b) (genre b) (description b) v)) /\
  (forall j, j <> book_id ->
     get_book_by_id j (update_availability book_id v db).2 = get_book_by_id j db) /\
  update_availability book_id v (update_availability book_id v db).2 =
    update_availability book_id v db.
Proof.
  intros _. rewrite !update_availability_eq. simpl.
  unfold get_book_by_id, Sql.select_by_id. simpl. repeat split.
  - intros H%bool_decide_eq_true_1. by apply fmap_is_Some.
  - intros H%fmap_is_Some. by apply bool_decide_eq_true_2.
  - intros H. destruct (books db !! book_id) as [c|] eqn:E; [discriminate|].
    f_equal. apply db_eq; [done|]. intros j. simpl. rewrite lookup_alter.
    case_decide; [subst j; by rewrite E | done].
  - intros b. rewrite lookup_alter_eq.
    destruct (books db !! book_id) as [c|]; simpl; [|discriminate].
    by intros [= <-].
  - intros j Hj. by rewrite lookup_alter_ne.
  - f_equal.
    + apply bool_decide_ext. rewrite lookup_alter_eq. apply fmap_is_Some.
    + f_equal. apply map_eq. intros j.
      destruct (decide (j = book_id)) as [->|Hj].
      * rewrite !lookup_alter_eq. by destruct (books db !! book_id).
      * by rewrite !lookup_alter_ne.
Qed.

Lemma stats_ext (s : stats) (t a b : Z) :
  total s = t -> st_available s = a -> borrowed s = b -> s = Stats t a b.
Proof. destruct s; simpl; congruence. Qed.

Lemma borrow_book_eq (book_id : Z) (db : DB) (b : book) :
  get_book_by_id book_id db = Some b -> py_eq0 (available b) = false ->
  borrow_book book_id db = update_availability book_id (Some 0) db.
Proof. unfold borrow_book. by intros -> ->. Qed.

Lemma borrow_book_flag (book_id : Z) (db : DB) (b : book) :
  get_book_by_id book_id db = Some b ->
  available <$> get_book_by_id book_id (borrow_book book_id db).2 = Some (Some 0).
Proof.
  intros Hb. unfold borrow_book. rewrite Hb.
  destruct (py_eq0 (available b)) eqn:E.
  - simpl. rewrite Hb. simpl. f_equal. unfold py_eq0 in E.
    destruct (available b) as [z|]; [|discriminate].
    apply Z.eqb_eq in E. by subst.
  - apply select_by_id_Some in Hb as (c & Hc & ->).
    destruct (update_availability_present book_id (Some 0) db c Hc)
      as (db' & Hu & Hk & _).
    rewrite Hu. simpl. unfold get_book_by_id, Sql.select_by_id. by rewrite Hk.
Qed.

(** X5. [borrow_book] returns [True] exactly when the row exists and its
    available flag is not 0: a flag that is NULL or a number other than
    0 and 1 does not stop the loan, and the flag is 0 afterwards. *)
Theorem borrow_book_succeeds_iff (book_id : Z) (db : DB) :
  ((borrow_book book_id db).1 = true <->
   exists b, get_book_by_id book_id db = Some b /\ available b <> Some 0) /\
  (forall b, get_book_by_id book_id db = Some b ->
     available <$> get_book_by_id book_id (borrow_book book_id db).2 = Some (Some 0)).
Proof.
  split; [|apply borrow_book_flag].
  unfold borrow_book. destruct (get_book_by_id book_id db) as [b|] eqn:Hb.
  - apply select_by_id_Some in Hb as (c & Hc & ->).
    destruct (update_availability_present book_id (Some 0) db c Hc)
      as (db' & Hu & _).
    rewrite Hu. change (available (to_book book_id c)) with (c_available c).
    destruct (c_available c) as [z|] eqn:Hav; simpl.
    + destruct (Z.eqb_spec z 0) as [->|Hz]; simpl.
      * split; [discriminate|]. intros (b & [= <-] & Hne). simpl in Hne. congruence.
      * split; [|done].
        intros _. eexists. split; [done|]. simpl. congruence.
    + split; [|done].
      intros _. eexists. split; [done|]. simpl. congruence.
  - simpl. split; [discriminate|]. intros (b & Hb' & _). discriminate.
Qed.

Lemma borrow_return_undo (book_id : Z) (db : DB) (b : book) :
  get_book_by_id book_id db = Some b ->
  (available b = Some 1 ->
   (borrow_book book_id db).1 = true /\
   return_book book_id (borrow_book book_id db).2 = (true, db)) /\
  (available b = Some 0 ->
   (return_book book_id db).1 = true /\
   borrow_book book_id (return_book book_id db).2 = (true, db)).
Proof.
  intros (c & Hc & ->)%select_by_id_Some.
  assert (Hget : get_book_by_id book_id db = Some (to_book book_id c)).
  { unfold get_book_by_id, Sql.select_by_id. by rewrite Hc. }
  change (available (to_book book_id c)) with (c_available c).
  destruct (update_availability_present book_id (Some 0) db c Hc)
    as (d0 & Hu0 & Hk0 & Ho0 & Hs0).
  destruct (update_availability_present book_id (Some 1) db c Hc)
    as (d1 & Hu1 & Hk1 & Ho1 & Hs1).
  destruct (update_availability_present book_id (Some 1) d0 _ Hk0)
    as (d01 & Hu01 & Hk01 & Ho01 & Hs01).
  destruct (update_availability_present book_id (Some 0) d1 _ Hk1)
    as (d10 & Hu10 & Hk10 & Ho10 & Hs10).
  split; intros Hav.
  - assert (borrow_book book_id db = (true, d0)) as ->.
    { unfold borrow_book. rewrite Hget, Hu0.
      change (available (to_book book_id c)) with (c_available c). by rewrite Hav. }
    split; [done|]. unfold return_book. simpl. rewrite Hu01. f_equal.
    apply db_eq; [congruence|]. intros j.
    destruct (decide (j = book_id)) as [->|Hj].
    + rewrite Hk01, Hc. f_equal. destruct c; unfold set_available; simpl in *; congruence.
    + by rewrite Ho01, Ho0.
  - unfold return_book. rewrite Hu1. split; [done|]. simpl.
    assert (get_book_by_id book_id d1 =
            Some (to_book book_id (set_available (Some 1) c))) as Hget1.
    { unfold get_book_by_id, Sql.select_by_id. by rewrite Hk1. }
    unfold borrow_book. rewrite Hget1, Hu10. simpl. f_equal.
    apply db_eq; [congruence|]. intros j.
    destruct (decide (j = book_id)) as [->|Hj].
    + rewrite Hk10, Hc. f_equal. destruct c; unfold set_available; simpl in *; congruence.
    + by rewrite Ho10, Ho1.
Qed.

(** X6. Borrowing an available book and returning it leaves the store
    exactly as it was, and so does returning a borrowed book and
    borrowing it again. *)
Theorem borrow_return_round_trip (book_id : Z) (db : DB) (b : book) :
  get_book_by_id book_id db = Some b ->
  (available b = Some 1 ->
   (borrow_book book_id db).1 = true /\
   return_book book_id (borrow_book book_id db).2 = (true, db)) /\
  (available b = Some 0 ->
   (return_book book_id db).1 = true /\
   borrow_book book_id (return_book book_id db).2 = (true, db)).
Proof. apply borrow_return_undo. Qed.

(** X7. A loan moves one book from the available count of [get_stats]
    to the borrowed count, a return moves it back, and the total stays:
    for a row with flag 1, [borrow_book] lowers available by one and
    raises borrowed by one; for a row with flag 0, [return_book] does
    the opposite. *)
Theorem get_stats_borrow_return (book_id : Z) (db : DB) (b : book) :
  get_book_by_id book_id db = Some b ->
  (available b = Some 1 ->
   get_stats (borrow_book book_id db).2 =
   Stats (total (get_stats db)) (st_available (get_stats db) - 1)
         (borrowed (get_stats db) + 1)) /\
  (available b = Some 0 ->
   get_stats (return_book book_id db).2 =
   Stats (total (get_stats db)) (st_available (get_stats db) + 1)
         (borrowed (get_stats db) - 1)).
Proof.
  intros (c & Hc & ->)%select_by_id_Some.
  assert (Hget : get_book_by_id book_id db = Some (to_book book_id c)).
  { unfold get_book_by_id, Sql.select_by_id. by rewrite Hc. }
  change (available (to_book book_id c)) with (c_available c).
  split; intros Hav.
  - rewrite (borrow_book_eq _ _ _ Hget)
      by (change (available (to_book book_id c)) with (c_available c); by rewrite Hav).
    rewrite update_availability_eq.
    destruct (get_stats_set_available book_id (Some 0) c db Hc) as (H1 & H2 & H3).
    rewrite Hav in H2, H3. simpl snd. apply stats_ext; simpl in *; lia.
  - unfold return_book. rewrite update_availability_eq.
    destruct (get_stats_set_available book_id (Some 1) c db Hc) as (H1 & H2 & H3).
    rewrite Hav in H2, H3. simpl snd. apply stats_ext; simpl in *; lia.
Qed.

(** X8. After [borrow_book] on an existing id, whatever it returned, the
    book is not among [get_available_books]; after [return_book] it
    is. *)
Theorem available_listing_after_borrow_return (book_id : Z) (db : DB) (b : book) :
  get_book_by_id book_id db = Some b ->
  (forall b', In b' (get_available_books (borrow_book book_id db).2) ->
              id b' <> book_id) /\
  In (Book book_id (title b) (author b) (genre b) (description b) (Some 1))
     (get_available_books (return_book book_id db).2).
Proof.
  intros Hb. split.
  - intros b' Hin Hid.
    unfold get_available_books in Hin. apply select_where_spec in Hin as [Hrow Hav].
    rewrite Hid in Hrow.
    assert (get_book_by_id book_id (borrow_book book_id db).2 =
            Some (to_book book_id (to_cols b'))) as Hget.
    { unfold get_book_by_id, Sql.select_by_id. by rewrite Hrow. }
    pose proof (borrow_book_flag book_id db b Hb) as H0.
    rewrite Hget in H0. simpl in H0. injection H0 as H0.
    rewrite H0 in Hav. discriminate.
  - apply select_by_id_Some in Hb as (c & Hc & ->).
    unfold return_book. rewrite update_availability_eq.
    unfold get_available_books. apply select_where_spec. simpl. split; [|done].
    by rewrite lookup_alter_eq, Hc.
Qed.

(** ** Row ids *)

Lemma max_rowid_le (t : gmap Z cols) (s : Z) :
  0 <= s -> (forall k c, t !! k = Some c -> k <= s) -> Sql.max_rowid t <= s.
Proof.
  intros Hs. unfold Sql.max_rowid. revert t.
  apply (map_fold_weak_ind
           (fun (m : Z) (t : gmap Z cols) =>
              (forall k c, t !! k = Some c -> k <= s) -> m <= s)).
  - done.
  - intros j x t m Hj IH H.
    assert (j <= s) by (apply (H j x); by rewrite lookup_insert_eq).
    assert (m <= s); [|lia].
    apply IH. intros k c Hk. apply (H k c).
    rewrite lookup_insert_ne; [done|]. intros ->. congruence.
Qed.

Lemma step_seq_mono (o : op) (db : DB) : seq db <= seq (step o db).
Proof.
  destruct o as [t a g d av|k t a g d av|k av|k|k|k]; unfold step.
  - unfold call_add_book.
    destruct t as [|[t'|]], a as [|[a'|]], g as [|g'], d as [|d']; try done.
    rewrite add_book_eq. simpl. pose proof (next_rowid_above_seq db). lia.
  - unfold call_update_book. by rewrite update_book_seq.
  - by rewrite update_availability_eq.
  - unfold borrow_book. destruct (get_book_by_id k db) as [b|]; [|done].
    destruct (py_eq0 (available b)); [done|]. by rewrite update_availability_eq.
  - unfold return_book. by rewrite update_availability_eq.
  - by rewrite delete_book_eq.
Qed.

Lemma run_seq_mono (ops : list op) (db : DB) : seq db <= seq (run ops db).
Proof.
  revert db. induction ops as [|o ops IH]; intros db; simpl; [done|].
  etransitivity; [apply (step_seq_mono o)|]. apply IH.
Qed.

Lemma ids_in_range_step (o : op) (db : DB) :
  ids_in_range db -> ids_in_range (step o db).
Proof.
  intros [Hs Hk]. split; [pose proof (step_seq_mono o db); lia|].
  destruct o as [t a g d av|j t a g d av|j av|j|j|j]; unfold step.
  - unfold call_add_book.
    destruct t as [|[t'|]], a as [|[a'|]], g as [|g'], d as [|d']; try done.
    rewrite add_book_eq. simpl. intros k c. rewrite lookup_insert.
    pose proof (next_rowid_above_seq db).
    case_decide; [subst k; intros _; lia|].
    intros Hc. apply Hk in Hc. lia.
  - unfold call_update_book. intros k c. rewrite update_book_lookup, update_book_seq.
    case_decide; [|apply Hk].
    destruct (books db !! k) as [c0|] eqn:E; [|discriminate]. intros _. by eapply Hk.
  - rewrite update_availability_eq. simpl. intros k c. rewrite lookup_alter.
    case_decide; [subst k|apply Hk].
    destruct (books db !! j) as [c0|] eqn:E; [|discriminate]. intros _. by eapply Hk.
  - unfold borrow_book. destruct (get_book_by_id j db) as [b|]; [|done].
    destruct (py_eq0 (available b)); [done|].
    rewrite update_availability_eq. simpl. intros k c. rewrite lookup_alter.
    case_decide; [subst k|apply Hk].
    destruct (books db !! j) as [c0|] eqn:E; [|discriminate]. intros _. by eapply Hk.
  - unfold return_book. rewrite update_availability_eq. simpl.
    intros k c. rewrite lookup_alter.
    case_decide; [subst k|apply Hk].
    destruct (books db !! j) as [c0|] eqn:E; [|discriminate]. intros _. by eapply Hk.
  - rewrite delete_book_eq. simpl. intros k c. rewrite lookup_delete.
    case_decide; [discriminate|apply Hk].
Qed.

Lemma add_book_listing (t a : string) (g d : option string) (av : option Z)
    (db db' : DB) (k : Z) :
  add_book (Some t) (Some a) g d av db = Returns k db' ->
  get_book_by_id k db = None /\ seq db < k /\
  get_all_books db' ≡ₚ Book k t a g d av :: get_all_books db /\
  get_stats db' =
    Stats (total (get_stats db) + 1)
          (st_available (get_stats db) + (if sql_eq av 1 then 1 else 0))
          (borrowed (get_stats db) + (if sql_eq av 0 then 1 else 0)).
Proof.
  rewrite add_book_eq. intros [= <- <-].
  pose proof (next_rowid_fresh db) as Hf.
  split; [by apply select_by_id_None|]. split; [apply next_rowid_above_seq|].
  destruct db as [m s]. simpl in Hf. split.
  - unfold get_all_books. rewrite !select_where_all. simpl.
    apply (scan_insert m _ (Cols t a g d av) _ s Hf).
  - apply stats_ext; simpl.
    + rewrite (select_where_insert _ m _ _ _ s Hf). simpl. lia.
    + rewrite (select_where_insert _ m _ _ _ s Hf). simpl.
      destruct (sql_eq av 1); lia.
    + rewrite (select_where_insert _ m _ _ _ s Hf). simpl.
      destruct (sql_eq av 0); lia.
Qed.

(** X10. A successful [add_book] adds exactly one row: the id it returns
    was not in use and is larger than the sequence value, the rows
    listed afterwards are the new row and the rows listed before, and
    the counts of [get_stats] grow by that one row. *)
Theorem add_book_adds_one_row (t a : string) (g d : option string) (av : option Z)
    (db db' : DB) (k : Z) :
  add_book (Some t) (Some a) g d av db = Returns k db' ->
  get_book_by_id k db = None /\ seq db < k /\
  get_all_books db' ≡ₚ Book k t a g d av :: get_all_books db /\
  get_stats db' =
    Stats (total (get_stats db) + 1)
          (st_available (get_stats db) + (if sql_eq av 1 then 1 else 0))
          (borrowed (get_stats db) + (if sql_eq av 0 then 1 else 0)).
Proof. apply add_book_listing. Qed.

(** X11. Deleting the book just added gives back the rows there were
    before; only the sequence value has moved on to the id that was
    handed out. *)
Theorem add_then_delete (t a : string) (g d : option string) (av : option Z)
    (db db' : DB) (k : Z) :
  add_book (Some t) (Some a) g d av db = Returns k db' ->
  delete_book k db' = (true, MkDB (books db) k) /\
  get_all_books (delete_book k db').2 = get_all_books db.
Proof.
  rewrite add_book_eq. intros [= <- <-].
  pose proof (next_rowid_fresh db) as Hf.
  rewrite delete_book_eq. simpl. rewrite lookup_insert_eq, delete_insert_id by done.
  split; [done|]. reflexivity.
Qed.

(** X12. An id is never handed out twice: once [add_book] has returned
    an id, every later [add_book], after any operations in between
    (deleting that book included), returns a larger one. *)
Theorem add_book_ids_increase (t a g d t2 a2 g2 d2 : option string) (av av2 : option Z)
    (ops : list op) (db db1 db2 : DB) (k k2 : Z) :
  add_book t a g d av db = Returns k db1 ->
  add_book t2 a2 g2 d2 av2 (run ops db1) = Returns k2 db2 ->
  k < k2.
Proof.
  intros H1 H2.
  apply add_book_fresh in H1 as (_ & _ & Hs1 & _).
  apply add_book_fresh in H2 as (_ & Hs2 & _).
  pose proof (run_seq_mono ops db1). lia.
Qed.

(** X13. In every store reached from the empty one, the ids in use lie
    between 1 and the sequence value, and the next [add_book] returns
    the sequence value plus one: ids are 1, 2, 3, ... in the order of
    the successful calls, whatever was deleted in between. *)
Theorem ids_consecutive (db : DB) :
  reachable (fun _ => True) db ->
  (forall k b, get_book_by_id k db = Some b -> 1 <= k <= seq db) /\
  (forall (t a : string) g d av,
     exists db', add_book (Some t) (Some a) g d av db = Returns (seq db + 1) db').
Proof.
  intros Hr. assert (ids_in_range db) as [Hs Hk].
  { induction Hr as [|o db Hr IH _].
    - split; [done|]. intros k c H. simpl in H. by rewrite lookup_empty in H.
    - by apply ids_in_range_step. }
  split.
  - intros k b (c & Hc & _)%select_by_id_Some. by eapply Hk.
  - intros t a g d av. rewrite add_book_eq.
    assert (Sql.next_rowid db = seq db + 1) as ->; [|by eexists].
    unfold Sql.next_rowid.
    assert (Sql.max_rowid (books db) <= seq db); [|lia].
    apply max_rowid_le; [done|]. intros k c Hc. apply Hk in Hc. lia.
Qed.

(** X14. [delete_book] on an existing id takes exactly that row out of
    the counts of [get_stats]: the total drops by one, and so does the
    available count if the flag was 1 or the borrowed count if it was
    0. *)
Theorem get_stats_delete (book_id : Z) (db : DB) (b : book) :
  get_book_by_id book_id db = Some b ->
  get_stats (delete_book book_id db).2 =
  Stats (total (get_stats db) - 1)
        (st_available (get_stats db) - (if sql_eq (available b) 1 then 1 else 0))
        (borrowed (get_stats db) - (if sql_eq (available b) 0 then 1 else 0)).
Proof.
  intros (c & Hc & ->)%select_by_id_Some. rewrite delete_book_eq. simpl snd.
  apply stats_ext; simpl.
  - rewrite (select_where_delete (fun _ => true) db book_id c Hc). simpl. lia.
  - rewrite (select_where_delete (fun b => sql_eq (available b) 1) db book_id c Hc).
    simpl. destruct (sql_eq (c_available c) 1); lia.
  - rewrite (select_where_delete (fun b => sql_eq (available b) 0) db book_id c Hc).
    simpl. destruct (sql_eq (c_available c) 0); lia.
Qed.


(** ** Search: the case of the term *)

Section LikeCase.

Implicit Types (p s : list N) (c : N) (z : list ascii).

(** Folding a byte and folding the character it stands for agree. *)
Lemma to_lower_fold (b : ascii) :
  N_of_ascii (Sql.to_lower b) = Sql.fold_case (N_of_ascii b).
Proof. by destruct b as [[] [] [] [] [] [] [] []]. Qed.

(** Two characters with the same fold are equal, or one is a capital
    letter and the other its small letter. *)
Lemma fold_case_eq (n1 n2 : N) :
  Sql.fold_case n1 = Sql.fold_case n2 ->
  n1 = n2 \/ ((n1 + 32 = n2)%N /\ (65 <= n1 <= 90)%N) \/
  ((n2 + 32 = n1)%N /\ (65 <= n2 <= 90)%N).
Proof.
  unfold Sql.fold_case.
  destruct (N.leb_spec 65%N n1), (N.leb_spec n1 90%N), (N.leb_spec 65%N n2),
    (N.leb_spec n2 90%N); simpl; lia.
Qed.

Lemma like_one p s :
  Sql.like_chars (95%N :: p) s =
  match s with [] => false | _ :: s' => Sql.like_chars p s' end.
Proof. reflexivity. Qed.

Lemma like_any_ext p p' :
  (forall s, Sql.like_chars p s = Sql.like_chars p' s) ->
  forall s, Sql.like_chars (37%N :: p) s = Sql.like_chars (37%N :: p') s.
Proof.
  intros H s. induction s as [|c s IH].
  - by rewrite !like_any_nil, H.
  - by rewrite !like_any_cons, H, IH.
Qed.

Lemma like_chars_cons_ext c p p' :
  (forall s, Sql.like_chars p s = Sql.like_chars p' s) ->
  forall s, Sql.like_chars (c :: p) s = Sql.like_chars (c :: p') s.
Proof.
  intros H s. destruct (N.eq_dec c 37%N) as [->|H1]; [by apply like_any_ext|].
  destruct (N.eq_dec c 95%N) as [->|H2].
  - rewrite !like_one. destruct s; [done | apply H].
  - rewrite !like_literal by done. destruct s; [done|]. by rewrite H.
Qed.

(** Two patterns that agree up to the case of ASCII letters match the
    same texts. *)
Lemma like_chars_pattern_case p p' :
  map Sql.fold_case p = map Sql.fold_case p' ->
  forall s, Sql.like_chars p s = Sql.like_chars p' s.
Proof.
  revert p'. induction p as [|c p IH]; intros [|c' p'] Heq; try discriminate.
  - done.
  - simpl in Heq. injection Heq as Hc Hp. specialize (IH p' Hp). intros s.
    destruct (fold_case_eq c c' Hc) as [<- | Hletters].
    + by apply like_chars_cons_ext.
    + rewrite !like_literal by lia. destruct s as [|d s]; [done|].
      by rewrite Hc, IH.
Qed.

(** Two texts whose bytes agree up to the case of ASCII letters have
    characters that agree up to that case. *)
Lemma utf8_chars_case z1 z2 :
  map Sql.to_lower z1 = map Sql.to_lower z2 ->
  forall pending,
    map Sql.fold_case (Sql.utf8_chars pending z1) =
    map Sql.fold_case (Sql.utf8_chars pending z2).
Proof.
  revert z2. induction z1 as [|b1 z1 IH]; intros [|b2 z2] Heq pending;
    try discriminate; [done|].
  simpl in Heq. injection Heq as Hb Hz. specialize (IH z2 Hz).
  assert (Sql.fold_case (N_of_ascii b1) = Sql.fold_case (N_of_ascii b2)) as Hn
    by (by rewrite <- !to_lower_fold, Hb).
  rewrite !utf8_chars_cons. cbv zeta.
  destruct (fold_case_eq _ _ Hn) as [E | Hletters].
  - rewrite <- E.
    destruct pending as [c|];
      destruct ((128 <=? N_of_ascii b1) && (N_of_ascii b1 <? 192))%N;
      destruct (N_of_ascii b1 =? 0)%N; destruct (N_of_ascii b1 <? 192)%N;
      simpl; repeat rewrite IH; reflexivity.
  - assert ((N_of_ascii b1 =? 0)%N = false /\ (N_of_ascii b2 =? 0)%N = false /\
            (N_of_ascii b1 <? 192)%N = true /\ (N_of_ascii b2 <? 192)%N = true /\
            (N_of_ascii b1 <? 128)%N = true /\ (N_of_ascii b2 <? 128)%N = true)
      as (E1 & E2 & E3 & E4 & E5 & E6).
    { rewrite !N.eqb_neq, !N.ltb_lt. lia. }
    assert ((128 <=? N_of_ascii b1)%N = false /\ (128 <=? N_of_ascii b2)%N = false)
      as [E7 E8].
    { apply N.ltb_lt in E5, E6. rewrite !N.leb_gt. lia. }
    rewrite E1, E2, E3, E4, E7, E8. simpl.
    destruct pending as [c|]; simpl; rewrite Hn; repeat rewrite IH; reflexivity.
Qed.

End LikeCase.

(** X15. The case of the ASCII letters of the search term does not
    matter, wildcards or not: two terms that agree once folded to lower
    case give the same result on every store. *)
Theorem search_books_term_case (term1 term2 : string) (db : DB) :
  map Sql.to_lower (list_ascii_of_string term1) =
  map Sql.to_lower (list_ascii_of_string term2) ->
  search_books term1 db = search_books term2 db.
Proof.
  intros H. unfold search_books, Sql.select_where_try.
  assert (forall x, Sql.like x ("%" +:+ term1 +:+ "%") =
                    Sql.like x ("%" +:+ term2 +:+ "%")) as Hlike.
  { intros x. unfold Sql.like.
    assert (map Sql.to_lower (list_ascii_of_string ("%" +:+ term1 +:+ "%")) =
            map Sql.to_lower (list_ascii_of_string ("%" +:+ term2 +:+ "%"))) as Hp
      by (by rewrite !list_ascii_of_string_app, !map_app, H).
    assert (String.length ("%" +:+ term1 +:+ "%") =
            String.length ("%" +:+ term2 +:+ "%")) as ->.
    { rewrite !string_length_list.
      rewrite <- (length_map Sql.to_lower (list_ascii_of_string ("%" +:+ term1 +:+ "%"))).
      by rewrite Hp, length_map. }
    destruct (Sql.like_limit <? _)%N; [done|]. f_equal.
    apply like_chars_pattern_case. unfold Sql.text_chars. by apply utf8_chars_case. }
  apply filter_try_ext. intros b. by rewrite !Hlike.
Qed.

(** ** [update_book] once more *)

Lemma patch_twice (t a g d : option string) (av : option Z) (c : cols) :
  patch t a g d av (patch t a g d av c) = patch t a g d av c.
Proof. by destruct t, a, g, d, av. Qed.

(** X16. [update_book] on an id that has no row leaves the store exactly
    as it was, also when it returns [True]; and repeating a call of
    [update_book] with the same arguments gives the same return value
    and changes nothing more. *)
Theorem update_book_idempotent (book_id : Z) (t a g d : arg (option string))
    (av : arg (option Z)) (db : DB) :
  (get_book_by_id book_id db = None ->
   (call_update_book book_id t a g d av db).2 = db) /\
  call_update_book book_id t a g d av (call_update_book book_id t a g d av db).2 =
    call_update_book book_id t a g d av db.
Proof.
  unfold call_update_book. split.
  - intros H%select_by_id_None. apply db_eq; [apply update_book_seq|].
    intros j. rewrite update_book_lookup. case_decide; [subst j|done]. by rewrite H.
  - apply injective_projections.
    + by destruct (with_default None t), (with_default None a),
        (with_default None g), (with_default None d), (with_default None av).
    + apply db_eq; [by rewrite !update_book_seq|].
      intros j. rewrite !update_book_lookup. case_decide; [|done].
      destruct (books db !! j) as [c|]; simpl; [|done]. by rewrite patch_twice.
Qed.

(** ** The demonstration *)

(** X17. On every store the calls of the demonstration go through: the
    book is added under a new id, it is in the listing and among the
    results of the search for "Tolkien", the loan and the return both
    succeed, and the script leaves the store as [add_book] left it, with
    one more book in the total and in the available count. *)
Theorem demo_runs (db : DB) :
  exists out db',
    demo db = Returns out db' /\
    get_book_by_id (d_book_id out) db = None /\
    (let new := Book (d_book_id out) "The Lord of the Rings" "J.R.R. Tolkien"
                     (Some "Fantasy"%string)
                     (Some "An epic tale of good versus evil"%string) (Some 1) in
     In new (d_books out) /\ In new (d_results out) /\
     get_book_by_id (d_book_id out) db' = Some new) /\
    d_borrowed out = true /\ d_returned out = true /\
    (forall j, j <> d_book_id out -> get_book_by_id j db' = get_book_by_id j db) /\
    d_available out = st_available (get_stats db) + 1 /\
    d_stats out = Stats (total (get_stats db) + 1) (st_available (get_stats db) + 1)
                        (borrowed (get_stats db)).
Proof.
  unfold demo, call_add_book, with_default.
  destruct (add_book (Some "The Lord of the Rings"%string) (Some "J.R.R. Tolkien"%string)
              (Some "Fantasy"%string)
              (Some "An epic tale of good versus evil"%string) (Some 1) db)
    as [k db1|e] eqn:Hadd; [|by rewrite add_book_eq in Hadd].
  pose proof (add_book_listing _ _ _ _ _ _ _ _ Hadd) as (Hfresh & _ & Hperm & Hstats).
  pose proof (add_book_fresh _ _ _ _ _ _ _ _ Hadd) as (_ & _ & _ & Hother).
  set (new := Book k "The Lord of the Rings" "J.R.R. Tolkien" (Some "Fantasy"%string)
                   (Some "An epic tale of good versus evil"%string) (Some 1)).
  assert (get_book_by_id k db1 = Some new) as Hnew.
  { rewrite add_book_eq in Hadd. injection Hadd as <- <-.
    unfold get_book_by_id, Sql.select_by_id. simpl. by rewrite lookup_insert_eq. }
  destruct (borrow_return_undo k db1 new Hnew) as [Hbr _].
  destruct (Hbr eq_refl) as [Hb Hr].
  set (found := fun b : book =>
         Sql.like_chars (Sql.text_chars ("%" +:+ "Tolkien" +:+ "%"))
                        (Sql.text_chars (title b)) ||
         Sql.like_chars (Sql.text_chars ("%" +:+ "Tolkien" +:+ "%"))
                        (Sql.text_chars (author b))).
  assert (search_books "Tolkien" db1 = Ok (Sql.select_where found db1)) as ->.
  { unfold search_books, Sql.select_where_try, Sql.select_where.
    apply filter_try_ok. intros b.
    rewrite !like_within by (vm_compute; discriminate). unfold Sql.or_else, found.
    by destruct (Sql.like_chars (Sql.text_chars ("%" +:+ "Tolkien" +:+ "%"))
                                (Sql.text_chars (title b))). }
  destruct (borrow_book k db1) as [borrowed0 db2]. simpl in Hb, Hr. subst borrowed0.
  rewrite Hr. eexists _, db1. split; [reflexivity|].
  cbn [d_book_id d_books d_results d_available d_borrowed d_returned d_stats].
  split; [done|]. split; [|split; [done|split; [done|split; [done|split]]]].
  - split; [|split; [|done]].
    + rewrite Hperm. by left.
    + apply select_where_spec. split.
      * apply select_by_id_Some in Hnew as (c & Hc & Heq).
        cbn [id]. rewrite Hc. f_equal. unfold new in Heq.
        by rewrite Heq, to_cols_to_book.
      * reflexivity.
  - change (st_available (get_stats db1) = st_available (get_stats db) + 1).
    rewrite Hstats. reflexivity.
  - rewrite Hstats. simpl. f_equal; lia.
Qed.

(** ** The further properties at concrete inputs *)

Lemma get_all_books_complete_witness :
  get_book_by_id (id lotr) tolkien_db = Some lotr /\ In lotr (get_all_books tolkien_db).
Proof.
  assert (get_book_by_id (id lotr) tolkien_db = Some lotr) as H
    by (vm_compute; reflexivity).
  split; [exact H|].
  apply (proj1 (get_all_books_complete tolkien_db) lotr). exact H.
Defined.

Lemma get_available_books_spec_witness : In lotr (get_available_books tolkien_db).
Proof.
  apply (get_available_books_spec tolkien_db lotr). split.
  - vm_compute. reflexivity.
  - reflexivity.
Defined.

Lemma get_stats_counts_witness :
  two_valued tolkien_db /\
  st_available (get_stats tolkien_db) + borrowed (get_stats tolkien_db) =
  total (get_stats tolkien_db).
Proof.
  assert (two_valued tolkien_db) as H.
  { unfold tolkien_db.
    apply two_valued_step; [right; reflexivity|].
    apply two_valued_step; [right; reflexivity|].
    apply two_valued_empty. }
  split; [exact H|].
  apply (proj2 (proj2 (proj2 (get_stats_counts tolkien_db)))). exact H.
Defined.

Lemma update_availability_spec_witness :
  sqlite_int (Some 5) /\
  update_availability 3 (Some 5) tolkien_db = (false, tolkien_db) /\
  get_book_by_id 2 (update_availability 2 (Some 5) tolkien_db).2 =
  Some (Book 2 (title lotr) (author lotr) (genre lotr) (description lotr) (Some 5)).
Proof.
  assert (sqlite_int (Some 5)) as Hv by (simpl; lia).
  split; [exact Hv|]. split.
  - apply (proj1 (proj2 (update_availability_spec 3 (Some 5) tolkien_db Hv))).
    vm_compute. reflexivity.
  - apply (proj1 (proj2 (proj2 (update_availability_spec 2 (Some 5) tolkien_db Hv)))
             lotr).
    vm_compute. reflexivity.
Defined.

Lemma borrow_book_succeeds_iff_witness : (borrow_book 2 tolkien_db).1 = true.
Proof.
  apply (proj2 (proj1 (borrow_book_succeeds_iff 2 tolkien_db))). exists lotr. split.
  - vm_compute. reflexivity.
  - discriminate.
Defined.

Lemma borrow_return_round_trip_witness :
  get_book_by_id 2 tolkien_db = Some lotr /\
  return_book 2 (borrow_book 2 tolkien_db).2 = (true, tolkien_db).
Proof.
  assert (get_book_by_id 2 tolkien_db = Some lotr) as H by (vm_compute; reflexivity).
  split; [exact H|].
  apply (proj1 (borrow_return_round_trip 2 tolkien_db lotr H)). reflexivity.
Defined.

Lemma get_stats_borrow_return_witness :
  get_stats (borrow_book 2 tolkien_db).2 =
  Stats (total (get_stats tolkien_db)) (st_available (get_stats tolkien_db) - 1)
        (borrowed (get_stats tolkien_db) + 1).
Proof.
  apply (proj1 (get_stats_borrow_return 2 tolkien_db lotr
                  ltac:(vm_compute; reflexivity))).
  reflexivity.
Defined.

Lemma available_listing_after_borrow_return_witness :
  In (Book 2 (title lotr) (author lotr) (genre lotr) (description lotr) (Some 1))
     (get_available_books (return_book 2 tolkien_db).2).
Proof.
  apply (proj2 (available_listing_after_borrow_return 2 tolkien_db lotr
                  ltac:(vm_compute; reflexivity))).
Defined.

Lemma add_book_adds_one_row_witness :
  get_book_by_id 3 tolkien_db = None /\ seq tolkien_db < 3 /\
  get_all_books (MkDB (<[3 := Cols "Emma" "Jane Austen" None None (Some 1)]>
                         (books tolkien_db)) 3)
    ≡ₚ Book 3 "Emma" "Jane Austen" None None (Some 1) :: get_all_books tolkien_db /\
  get_stats (MkDB (<[3 := Cols "Emma" "Jane Austen" None None (Some 1)]>
                     (books tolkien_db)) 3) =
    Stats (total (get_stats tolkien_db) + 1)
          (st_available (get_stats tolkien_db) + (if sql_eq (Some 1) 1 then 1 else 0))
          (borrowed (get_stats tolkien_db) + (if sql_eq (Some 1) 0 then 1 else 0)).
Proof.
  apply (add_book_adds_one_row "Emma" "Jane Austen" None None (Some 1) tolkien_db).
  vm_compute. reflexivity.
Defined.

Lemma add_then_delete_witness :
  delete_book 3 (MkDB (<[3 := Cols "Emma" "Jane Austen" None None (Some 1)]>
                         (books tolkien_db)) 3) =
  (true, MkDB (books tolkien_db) 3).
Proof.
  apply (proj1 (add_then_delete "Emma" "Jane Austen" None None (Some 1) tolkien_db
                  _ 3 ltac:(vm_compute; reflexivity))).
Defined.

Lemma add_book_ids_increase_witness :
  add_book (Some "Emma"%string) (Some "Jane Austen"%string) None None (Some 1)
    (run [Delete 3]
       (MkDB (<[3 := Cols "Emma" "Jane Austen" None None (Some 1)]>
                (books tolkien_db)) 3)) =
  Returns 4 (MkDB (<[4 := Cols "Emma" "Jane Austen" None None (Some 1)]>
                     (books tolkien_db)) 4) /\
  3 < 4.
Proof.
  pose (d1 := MkDB (<[3 := Cols "Emma" "Jane Austen" None None (Some 1)]>
                      (books tolkien_db)) 3).
  pose (d2 := MkDB (<[4 := Cols "Emma" "Jane Austen" None None (Some 1)]>
                      (books tolkien_db)) 4).
  assert (add_book (Some "Emma"%string) (Some "Jane Austen"%string) None None (Some 1)
            (run [Delete 3] d1) = Returns 4 d2) as H2
    by (vm_compute; reflexivity).
  split; [exact H2|].
  apply (add_book_ids_increase (Some "Emma"%string) (Some "Jane Austen"%string)
           None None (Some "Emma"%string) (Some "Jane Austen"%string) None None
           (Some 1) (Some 1) [Delete 3] tolkien_db d1 d2 3 4);
    [vm_compute; reflexivity | exact H2].
Defined.

Lemma ids_consecutive_witness :
  reachable (fun _ => True) tolkien_db /\
  exists db', add_book (Some "Emma"%string) (Some "Jane Austen"%string) None None
                (Some 1) tolkien_db = Returns (seq tolkien_db + 1) db'.
Proof.
  assert (reachable (fun _ => True) tolkien_db) as H.
  { unfold tolkien_db.
    apply reach_step; [apply reach_step; [apply reach_empty|exact I]|exact I]. }
  split; [exact H|]. apply (proj2 (ids_consecutive tolkien_db H)).
Defined.

Lemma get_stats_delete_witness :
  get_stats (delete_book 1 tolkien_db).2 =
  Stats (total (get_stats tolkien_db) - 1)
        (st_available (get_stats tolkien_db) - (if sql_eq (available dune) 1 then 1 else 0))
        (borrowed (get_stats tolkien_db) - (if sql_eq (available dune) 0 then 1 else 0)).
Proof.
  apply (get_stats_delete 1 tolkien_db dune). vm_compute. reflexivity.
Defined.

Lemma search_books_term_case_witness :
  search_books "TOLKIEN" tolkien_db = search_books "tolkien" tolkien_db.
Proof.
  apply (search_books_term_case "TOLKIEN" "tolkien" tolkien_db). reflexivity.
Defined.

Lemma update_book_idempotent_witness :
  (call_update_book 3 (Passed (Some "Emma"%string)) Omitted Omitted Omitted Omitted
     tolkien_db).2 = tolkien_db.
Proof.
  apply (proj1 (update_book_idempotent 3 (Passed (Some "Emma"%string)) Omitted Omitted
                  Omitted Omitted tolkien_db)).
  vm_compute. reflexivity.
Defined.
